(** * TrancheReady core: risk scoring, evidence manifest, evidence token cache

    A shallow embedding of [src/lib/rules.js], [src/lib/manifest.js] and
    [src/lib/verify-store.js], followed by the properties of the
    specification that concern them.

    Conventions of the embedding.
    - A calendar date is carried as its day number (an integer count of
      calendar days).  The normalised records hold ISO-8601 calendar dates
      [YYYY-MM-DD]; on those, [===] is equality of day numbers,
      [localeCompare] is their order, [isAfter] of the parsed values is [<]
      and [differenceInCalendarDays] is subtraction.
    - A JS number that holds an amount is a rational ([Q]); scores and
      points, which are small integers, are in [Z].
    - A JS [Map] keyed by strings is a [gmap string _]; an array is a list.
    - The clock ([Date.now()]) and the library primitives of Node and
      tweetnacl (SHA-256, Ed25519, base64, JSON) are explicit arguments. *)

From Stdlib Require Import ZArith QArith Ascii String List Lia.
From stdpp Require Import base option list sorting gmap strings pretty.

#[local] Set Warnings "-clear-no-such-hyp".

Open Scope string_scope.
Open Scope list_scope.
Open Scope Z_scope.

(** ** JavaScript values and string helpers *)

Module Js.

(** The values a loosely typed profile field can hold. *)
Inductive value : Type :=
| Undefined
| Null
| Bool (b : bool)
| Number (n : Z)
| Str (s : string).

(** [ToBoolean]. *)
Definition truthy (v : value) : bool :=
  match v with
  | Undefined | Null => false
  | Bool b => b
  | Number n => negb (n =? 0)%Z
  | Str s => negb (String.eqb s "")
  end.

(** [v || d]. *)
Definition or (v d : value) : value := if truthy v then v else d.

(** [String(v)], which is also [v.toString()] on the values that have it. *)
Definition String (v : value) : string :=
  match v with
  | Undefined => "undefined"
  | Null => "null"
  | Bool true => "true"
  | Bool false => "false"
  | Number n => pretty n
  | Str s => s
  end.

Definition lower_ascii (c : ascii) : ascii :=
  let n := nat_of_ascii c in
  if ((65 <=? n) && (n <=? 90))%nat then ascii_of_nat (n + 32) else c.

Definition upper_ascii (c : ascii) : ascii :=
  let n := nat_of_ascii c in
  if ((97 <=? n) && (n <=? 122))%nat then ascii_of_nat (n - 32) else c.

Fixpoint map_string (f : ascii -> ascii) (s : string) : string :=
  match s with
  | EmptyString => EmptyString
  | String.String c s' => String.String (f c) (map_string f s')
  end.

(** [s.toLowerCase()] and [s.toUpperCase()] on the ASCII letters.  Bytes
    above 127 are kept, so the functions are exact on ASCII text.  Outside
    ASCII, no character has a lower-case form that can complete one of
    the words the rules search for; the upper-case form of the dotless i
    is the letter I, which only an ASCII text excludes: the properties
    that read the upper-case form of a text are stated for ASCII texts
    ([ascii_text]). *)
Definition toLowerCase (s : string) : string := map_string lower_ascii s.
Definition toUpperCase (s : string) : string := map_string upper_ascii s.

(** [s.includes(p)]. *)
Fixpoint includes (s p : string) : bool :=
  String.prefix p s ||
  match s with
  | EmptyString => false
  | String.String _ s' => includes s' p
  end.

End Js.

(** ** Data model *)

(** [kyc_last_reviewed_at] as the scorer sees it: falsy (absent or empty),
    present but rejected by [parseISO] (an invalid date), or parsed. *)
Inductive KycDate : Type :=
| KycMissing
| KycUnparsable
| KycOn (day : Z).

Record Client : Type := {
  client_id : string;
  pep_flag : Js.value;
  sanctions_flag : Js.value;
  kyc_last_reviewed_at : KycDate;
  delivery_channel : Js.value;
  services : Js.value;
  residency_country : Js.value
}.

Record Transaction : Type := {
  tx_client_id : string;
  date : Z;
  direction : string;
  method : string;
  currency : string;
  amount : Q;
  counterparty_country : option string
}.

Record Lookback : Type := { start : Z; end_ : Z }.

Record Reason : Type := { family : string; text : string; points : Z }.

(** [{ type:'reason', ...r }] *)
Record TaggedReason : Type := { type : string; spread : Reason }.

Record RiskScoreResult : Type := {
  res_client_id : string;
  score : Z;
  band : string;
  reasons : list TaggedReason
}.

Record Banding : Type := { High : string; Medium : string; Low : string }.

Record RulesMeta : Type := {
  ruleset_id : string;
  lookback : Lookback;
  corridors : list string;
  banding : Banding
}.

Record ScoreOutput : Type := { scores : list RiskScoreResult; rulesMeta : RulesMeta }.

(** ** [rules.js] *)

Definition HR_COUNTRIES : list string := ["RU"; "CN"; "HK"; "AE"; "IN"; "IR"].

(** [HR_COUNTRIES.has(s)] *)
Definition HR_has (s : string) : bool := bool_decide (s ∈ HR_COUNTRIES).

Definition toBand (score : Z) : string :=
  if (30 <=? score)%Z then "High"
  else if (15 <=? score)%Z then "Medium"
  else "Low".

Definition daysBetween (a b : Z) : Z := Z.abs (a - b).

Definition reason (family text : string) (points : Z) : Reason :=
  {| family := family; text := text; points := points |}.

(** The running [score] and [reasons] of one client. *)
Definition acc : Type := Z * list Reason.

(** [if (cond) { score += add; reasons.push(r); }] *)
Definition hit (cond : bool) (add : Z) (r : Reason) (st : acc) : acc :=
  if cond then (st.1 + add, st.2 ++ [r]) else st.

(** [String(v || '').toLowerCase() === 'true'] *)
Definition flag_set (v : Js.value) : bool :=
  String.eqb (Js.toLowerCase (Js.String (Js.or v (Js.Str "")))) "true".

(** The "Profile signals" part of the loop body of [scoreAll]. *)
Definition profile_signals (lookback : Lookback) (c : Client) (st : acc) : acc :=
  let pep := flag_set (pep_flag c) in
  let sanc := flag_set (sanctions_flag c) in
  let st := hit pep 20 (reason "profile" "PEP flag" 20) st in
  let st := hit sanc 25 (reason "profile" "Sanctions flag" 25) st in
  let st :=
    match kyc_last_reviewed_at c with
    | KycMissing => st
    | KycUnparsable => st
    | KycOn kd =>
        let latest := end_ lookback in
        let days := latest - kd in
        hit (365 <? days)%Z 5 (reason "profile" "Stale KYC > 12 months" 5) st
    end in
  let chan := Js.toLowerCase (Js.String (Js.or (delivery_channel c) (Js.Str ""))) in
  let st := hit (Js.includes chan "online") 3 (reason "profile" "Online channel" 3) st in
  let svc := Js.toLowerCase (Js.String (Js.or (services c) (Js.Str ""))) in
  let st := hit (Js.includes svc "remittance") 6 (reason "profile" "Remittance service" 6) st in
  let st := hit (Js.includes svc "property") 4 (reason "profile" "Property service" 4) st in
  let rc := Js.toUpperCase (Js.String (Js.or (residency_country c) (Js.Str ""))) in
  hit (HR_has rc) 8 (reason "profile" "High-risk residency" 8) st.

(** [arr.sort((a,b) => a.date.localeCompare(b.date))].  The sort of the
    language is stable, so its result is the one list that is ordered by
    date and keeps the input order among equal dates; insertion at the
    front of the run of equal dates computes that list. *)
Fixpoint insert_by_date (t : Transaction) (l : list Transaction) : list Transaction :=
  match l with
  | [] => [t]
  | u :: l' => if (date t <=? date u)%Z then t :: l else u :: insert_by_date t l'
  end.

Fixpoint sort_by_date (l : list Transaction) : list Transaction :=
  match l with
  | [] => []
  | t :: l' => insert_by_date t (sort_by_date l')
  end.

(** The filter of [cashIn]. *)
Definition is_cashIn (t : Transaction) : bool :=
  String.eqb (direction t) "in" && String.eqb (method t) "cash"
  && String.eqb (currency t) "AUD"
  && Qle_bool 9600 (amount t) && Qle_bool (amount t) 9999.

(** The two nested loops over [cashIn]: for each [i], [win] holds
    [cashIn[i]] and the later entries within 7 days of it. *)
Fixpoint structured_loop (cashIn : list Transaction) : bool :=
  match cashIn with
  | [] => false
  | ti :: rest =>
      let win := ti :: filter (λ tj, daysBetween (date ti) (date tj) ≤ 7) rest in
      if (4 <=? length win)%nat then true else structured_loop rest
  end.

(** The filter of [intlHR]. *)
Definition is_intlHR (t : Transaction) : bool :=
  String.eqb (direction t) "out"
  && HR_has (default "" (counterparty_country t))
  && String.eqb (currency t) "AUD".

(** [!t.counterparty_country || t.counterparty_country === 'AU'] *)
Definition domestic (cc : option string) : bool :=
  match cc with
  | None => true
  | Some s => String.eqb s "" || String.eqb s "AU"
  end.

(** The filter of [largeAU]. *)
Definition is_largeAU (t : Transaction) : bool :=
  String.eqb (currency t) "AUD" && Qle_bool 100000 (amount t)
  && domestic (counterparty_country t).

Definition structuring_reason : Reason :=
  reason "behaviour" "Structuring pattern (≥4 cash deposits 9.6–9.999k in 7 days)" 12.

(** The "Behavioural" part of the loop body, on the sorted [txlist]. *)
Definition behaviour_signals (txlist : list Transaction) (st : acc) : acc :=
  let cashIn := filter (λ t, is_cashIn t) txlist in
  let structured := structured_loop cashIn in
  let st := hit structured 12 structuring_reason st in
  let intlHR := filter (λ t, is_intlHR t) txlist in
  let st :=
    hit ((2 <=? length intlHR)%nat && existsb (λ t, Qle_bool 20000 (amount t)) intlHR)
        10 (reason "behaviour" "High-risk corridor transfers (≥2; one ≥ 20k)" 10) st in
  let largeAU := filter (λ t, is_largeAU t) txlist in
  hit (1 <=? length largeAU)%nat
      8 (reason "behaviour" "Large domestic transfer ≥ 100k" 8) st.

(** [results.push({ client_id, score, band: toBand(score), reasons: ... })] *)
Definition result_of (c : Client) (st : acc) : RiskScoreResult :=
  {| res_client_id := client_id c;
     score := st.1;
     band := toBand st.1;
     reasons := map (λ r, {| type := "reason"; spread := r |}) st.2 |}.

(** The first loop: [txByClient], the transactions inside the lookback
    grouped by client in input order. *)
Definition in_lookback (lookback : Lookback) (t : Transaction) : bool :=
  let lbStart := start lookback in
  let td := date t in
  (lbStart <? td)%Z || (date t =? start lookback)%Z.

Definition index_step (lookback : Lookback)
    (txByClient : gmap string (list Transaction)) (t : Transaction)
    : gmap string (list Transaction) :=
  if in_lookback lookback t
  then <[tx_client_id t := default [] (txByClient !! tx_client_id t) ++ [t]]> txByClient
  else txByClient.

Definition index_txs (lookback : Lookback) (txs : list Transaction)
    : gmap string (list Transaction) :=
  foldl (index_step lookback) ∅ txs.

(** One iteration of the loop over [clients].  [sort] works in place: when
    the client has an array in [txByClient], that array is left sorted
    there for a later client with the same [client_id]. *)
Definition score_client (lookback : Lookback) (c : Client)
    (txByClient : gmap string (list Transaction))
    : RiskScoreResult * gmap string (list Transaction) :=
  let st : acc := (0, []) in
  let st := profile_signals lookback c st in
  let txlist := sort_by_date (default [] (txByClient !! client_id c)) in
  let txByClient := alter sort_by_date (client_id c) txByClient in
  let st := behaviour_signals txlist st in
  (result_of c st, txByClient).

Fixpoint score_loop (lookback : Lookback) (clients : list Client)
    (txByClient : gmap string (list Transaction)) (results : list RiskScoreResult)
    : list RiskScoreResult :=
  match clients with
  | [] => results
  | c :: clients' =>
      let '(r, txByClient') := score_client lookback c txByClient in
      score_loop lookback clients' txByClient' (results ++ [r])
  end.

(** [scoreAll(clients, txs, lookback)]; the function is [async] and has no
    [await]: its promise resolves to the value below. *)
Definition scoreAll (clients : list Client) (txs : list Transaction)
    (lookback : Lookback) : ScoreOutput :=
  let txByClient := index_txs lookback txs in
  let results := score_loop lookback clients txByClient [] in
  {| scores := results;
     rulesMeta :=
       {| ruleset_id := "dnfbp-2025.11";
          lookback := lookback;
          corridors := HR_COUNTRIES;
          banding := {| High := ">=30"; Medium := ">=15"; Low := "<15" |} |} |}.

(** ** [manifest.js] *)

Module Manifest.

(** [rulesMeta.ruleset_id], named apart from the manifest's own field. *)
Definition meta_ruleset_id (rulesMeta : RulesMeta) : string := ruleset_id rulesMeta.

Record FileEntry : Type := { name : string; bytes : nat; sha256 : string }.

Record Signing : Type := { key_id : string; signature : string }.

(** [signing] is a property that is set or absent. *)
Record t : Type := {
  created_utc : string;
  hash_algo : string;
  ruleset_id : string;
  files : list FileEntry;
  signing : option Signing
}.

(** The two keys of [cfg] the builder reads. *)
Record Cfg : Type := { SIGN_PRIVATE_KEY : string; SIGN_PUBLIC_KEY : string }.

(** [digest('hex')]: two lower-case hexadecimal digits per byte. *)
Definition hex_digit (n : N) : ascii :=
  default "0"%char (String.get (N.to_nat n) "0123456789abcdef").

Definition hex_byte (b : Byte.byte) : string :=
  let n := Byte.to_N b in
  String.String (hex_digit (n / 16)) (String.String (hex_digit (n mod 16)) "").

Fixpoint hex (bs : list Byte.byte) : string :=
  match bs with
  | [] => ""
  | b :: bs' => hex_byte b +:+ hex bs'
  end.

(** Reading a digest back: the value of a hexadecimal digit and the bytes
    of a hexadecimal string. *)
Definition unhex_digit (c : ascii) : option N :=
  let n := N_of_ascii c in
  if ((48 <=? n) && (n <=? 57))%N then Some (n - 48)%N
  else if ((97 <=? n) && (n <=? 102))%N then Some (n - 87)%N
  else None.

Fixpoint unhex (s : string) : option (list Byte.byte) :=
  match s with
  | "" => Some []
  | String.String hi (String.String lo s') =>
      h ← unhex_digit hi;
      l ← unhex_digit lo;
      b ← Byte.of_N (h * 16 + l);
      bs ← unhex s';
      Some (b :: bs)
  | _ => None
  end.

(** A string in a condition: true unless empty. *)
Definition nonempty (s : string) : bool := negb (String.eqb s "").

Section Build.

(** The primitives of Node and tweetnacl.  A result [None] stands for
    a raised exception. *)
Variable sha256_digest : list Byte.byte -> list Byte.byte.
Variable json_bytes : list FileEntry -> string -> string -> option (list Byte.byte).
Variable base64_decode : string -> option (list Byte.byte).
Variable nacl_sign_detached : list Byte.byte -> list Byte.byte -> option (list Byte.byte).
Variable base64_encode : list Byte.byte -> option string.

(** [crypto.createHash('sha256').update(buf).digest('hex')] *)
Definition sha256Hex (buf : list Byte.byte) : string := hex (sha256_digest buf).

(** The body of the [try] block: the value assigned to
    [manifest.signing], or [None] when any step raises. *)
Definition try_sign (cfg : Cfg) (files : list FileEntry)
    (created_utc ruleset_id : string) : option Signing :=
  msg ← json_bytes files created_utc ruleset_id;
  secret ← base64_decode (SIGN_PRIVATE_KEY cfg);
  signature ← nacl_sign_detached msg secret;
  sig64 ← base64_encode signature;
  Some {| key_id := "ed25519:app"; signature := sig64 |}.

(** [buildManifest(namedFiles, rulesMeta)].  [namedFiles] is given as
    [Object.entries(namedFiles)], [now_iso] is [new Date().toISOString()]. *)
Definition buildManifest (cfg : Cfg) (now_iso : string)
    (namedFiles : list (string * list Byte.byte)) (rulesMeta : RulesMeta) : t :=
  let files :=
    map (λ '(name, buf),
           {| name := name; bytes := length buf; sha256 := sha256Hex buf |})
        namedFiles in
  let manifest : t :=
    {| created_utc := now_iso;
       hash_algo := "SHA-256";
       ruleset_id := meta_ruleset_id rulesMeta;
       files := files;
       signing := None |} in
  if nonempty (SIGN_PRIVATE_KEY cfg) && nonempty (SIGN_PUBLIC_KEY cfg) then
    match try_sign cfg files (created_utc manifest) (ruleset_id manifest) with
    | Some s =>
        {| created_utc := created_utc manifest;
           hash_algo := hash_algo manifest;
           ruleset_id := ruleset_id manifest;
           files := Manifest.files manifest;
           signing := Some s |}
    | None => manifest
    end
  else manifest.

End Build.

End Manifest.

(** ** [verify-store.js] *)

Module Store.

Record Entry : Type := {
  zipBuffer : list Byte.byte;
  manifest : Manifest.t;
  exp : Z
}.

(** [put(token, zipBuffer, manifest, ttlMin)] at the instant [now]
    (milliseconds, [Date.now()]). *)
Definition put (token : string) (zipBuffer : list Byte.byte)
    (manifest : Manifest.t) (ttlMin : Z) (now : Z)
    (map : gmap string Entry) : gmap string Entry :=
  let exp := now + (ttlMin * 60 * 1000) in
  <[token := {| zipBuffer := zipBuffer; manifest := manifest; exp := exp |}]> map.

(** [get(token)] at the instant [now]: the returned value ([None] for
    [null]) and the map afterwards. *)
Definition get (token : string) (now : Z) (map : gmap string Entry)
    : option Entry * gmap string Entry :=
  match map !! token with
  | None => (None, map)
  | Some v =>
      if (exp v <? now)%Z then (None, delete token map)
      else (Some v, map)
  end.

(** Calls on the shared store, each at its instant. *)
Inductive call : Type :=
| Put (token : string) (zipBuffer : list Byte.byte) (manifest : Manifest.t) (ttlMin : Z)
| Get (token : string).

Definition step (map : gmap string Entry) (c : Z * call) : gmap string Entry :=
  match c.2 with
  | Put token zipBuffer manifest ttlMin => put token zipBuffer manifest ttlMin c.1 map
  | Get token => (get token c.1 map).2
  end.

Definition run (calls : list (Z * call)) (map : gmap string Entry) : gmap string Entry :=
  foldl step map calls.

(** The tokens that a sequence of calls passes to [put]. *)
Definition put_tokens (calls : list (Z * call)) : list string :=
  omap (λ c, match c.2 with Put token _ _ _ => Some token | Get _ => None end) calls.

End Store.

(** ** Notions of the specification *)

(** [sum(reason.points for reason in reasons)] *)
Definition sum_points (rs : list TaggedReason) : Z :=
  foldr (λ r s, points (spread r) + s) 0 rs.

(** A reason as it appears in a result. *)
Definition tagged (r : Reason) : TaggedReason := {| type := "reason"; spread := r |}.

(** The invariant of the accumulators: the score is the sum of the points
    of the reasons pushed so far. *)
Definition acc_ok (st : acc) : Prop := st.1 = sum_points (map tagged st.2).

(** The transactions a client's behavioural rules are about: the client's
    own, dated on or after [lookback.start]. *)
Definition selected (lookback : Lookback) (c : Client) (t : Transaction) : Prop :=
  tx_client_id t = client_id c ∧ start lookback ≤ date t.

#[global] Instance selected_dec lookback c t : Decision (selected lookback c t).
Proof. unfold selected. apply _. Defined.

(** The result of one client as a function of the transactions handed to
    its behavioural rules. *)
Definition score_of (lookback : Lookback) (c : Client) (txs : list Transaction)
    : RiskScoreResult :=
  result_of c (behaviour_signals (sort_by_date txs) (profile_signals lookback c (0, []))).

(** A window of the structuring rule: at least four of the given
    transactions, any two of them at most 7 calendar days apart. *)
Definition structuring_window (l : list Transaction) : Prop :=
  ∃ w : list Transaction,
    w ⊆+ l ∧ (4 ≤ length w)%nat ∧
    ∀ a b, a ∈ w → b ∈ w → daysBetween (date a) (date b) ≤ 7.

(** The qualifying transactions of the structuring rule for a client. *)
Definition qualifying (lookback : Lookback) (c : Client) (txs : list Transaction)
    : list Transaction :=
  filter (λ t, is_cashIn t) (filter (selected lookback c) txs).

(** None of the profile rules applies to the client. *)
Definition no_profile_signals (lookback : Lookback) (c : Client) : Prop :=
  flag_set (pep_flag c) = false ∧
  flag_set (sanctions_flag c) = false ∧
  match kyc_last_reviewed_at c with
  | KycOn kd => end_ lookback - kd ≤ 365
  | _ => True
  end ∧
  Js.includes (Js.toLowerCase (Js.String (Js.or (delivery_channel c) (Js.Str "")))) "online" = false ∧
  Js.includes (Js.toLowerCase (Js.String (Js.or (services c) (Js.Str "")))) "remittance" = false ∧
  Js.includes (Js.toLowerCase (Js.String (Js.or (services c) (Js.Str "")))) "property" = false ∧
  HR_has (Js.toUpperCase (Js.String (Js.or (residency_country c) (Js.Str "")))) = false.

(** Sample values for the examples. *)
Definition empty_manifest : Manifest.t :=
  {| Manifest.created_utc := "2025-11-01T00:00:00.000Z";
     Manifest.hash_algo := "SHA-256";
     Manifest.ruleset_id := "dnfbp-2025.11";
     Manifest.files := [];
     Manifest.signing := None |}.

Definition plain_client (id : string) : Client :=
  {| client_id := id;
     pep_flag := Js.Undefined;
     sanctions_flag := Js.Undefined;
     kyc_last_reviewed_at := KycMissing;
     delivery_channel := Js.Undefined;
     services := Js.Undefined;
     residency_country := Js.Undefined |}.

Definition cash_deposit (id : string) (day : Z) : Transaction :=
  {| tx_client_id := id;
     date := day;
     direction := "in";
     method := "cash";
     currency := "AUD";
     amount := 9700;
     counterparty_country := None |}.

Definition put_a_1 : list (Z * Store.call) :=
  [(0, Store.Put "tok" [Byte.x01] empty_manifest 60)].

Definition put_a_2 : list (Z * Store.call) :=
  [(5, Store.Put "tok" [Byte.x02] empty_manifest 30)].

Definition calls_a : list (Z * Store.call) :=
  [(0, Store.Put "a" [Byte.x01] empty_manifest 1); (10, Store.Get "a")].

Definition calls_b : list (Z * Store.call) :=
  [(20, Store.Put "b" [Byte.x02] empty_manifest 1); (70000, Store.Get "a")].

(** Ordered by date, earliest first. *)
Definition date_le (a b : Transaction) : Prop := date a ≤ date b.

(** ** Notions for the further properties of [rules.js] *)

Definition pep_reason : Reason := reason "profile" "PEP flag" 20.
Definition sanctions_reason : Reason := reason "profile" "Sanctions flag" 25.
Definition kyc_reason : Reason := reason "profile" "Stale KYC > 12 months" 5.
Definition online_reason : Reason := reason "profile" "Online channel" 3.
Definition remittance_reason : Reason := reason "profile" "Remittance service" 6.
Definition property_reason : Reason := reason "profile" "Property service" 4.
Definition residency_reason : Reason := reason "profile" "High-risk residency" 8.
Definition corridor_reason : Reason :=
  reason "behaviour" "High-risk corridor transfers (≥2; one ≥ 20k)" 10.
Definition large_reason : Reason := reason "behaviour" "Large domestic transfer ≥ 100k" 8.

(** The reasons of the rule set in the order in which the loop body tests
    them. *)
Definition catalogue : list Reason :=
  [pep_reason; sanctions_reason; kyc_reason; online_reason; remittance_reason;
   property_reason; residency_reason; structuring_reason; corridor_reason; large_reason].

(** A transfer of the corridor rule: outbound, in AUD, to a counterparty in
    a high-risk country. *)
Definition corridor_tx (t : Transaction) : Prop :=
  direction t = "out" ∧ currency t = "AUD" ∧
  match counterparty_country t with
  | Some cc => cc ∈ HR_COUNTRIES
  | None => False
  end.

#[global] Instance corridor_tx_dec t : Decision (corridor_tx t).
Proof. unfold corridor_tx. destruct (counterparty_country t); apply _. Defined.

(** A transfer of the large-domestic rule: in AUD, of at least 100000, with
    no counterparty country, an empty one, or ['AU']. *)
Definition large_domestic_tx (t : Transaction) : Prop :=
  currency t = "AUD" ∧ (100000 <= amount t)%Q ∧
  counterparty_country t ∈ [None; Some ""; Some "AU"].

(** A text of ASCII characters only. *)
Definition ascii_text (s : string) : Prop :=
  Forall (λ ch, (nat_of_ascii ch < 128)%nat) (list_ascii_of_string s).

(** The bands in increasing order. *)
Definition band_rank (b : string) : Z :=
  if String.eqb b "High" then 2 else if String.eqb b "Medium" then 1 else 0.

(** ** The rest of [verify-store.js] and the routes that use the store *)

(** [newToken()], as a function of the bytes that [crypto.randomBytes(16)]
    draws: their hexadecimal form. *)
Definition newToken (randomBytes : list Byte.byte) : string := Manifest.hex randomBytes.

(** The token a call on the store is about. *)
Definition call_token (c : Z * Store.call) : string :=
  match c.2 with
  | Store.Put token _ _ _ => token
  | Store.Get token => token
  end.

(** The double quote character. *)
Definition dquote : ascii := "034"%char.

Module Server.

(** What a route sends. *)
Inductive response : Type :=
| Status404 (body : string)
| RenderVerify (manifest : Manifest.t) (publicKey : string)
| SendZip (contentType contentDisposition : string) (body : list Byte.byte).

(** [app.get('/verify/:token', ...)] at the instant [now]. *)
Definition verify (cfg : Manifest.Cfg) (token : string) (now : Z)
    (store : gmap string Store.Entry) : response * gmap string Store.Entry :=
  let '(entry, store) := Store.get token now store in
  match entry with
  | None => (Status404 "Link expired or not found.", store)
  | Some entry =>
      (RenderVerify (Store.manifest entry) (Manifest.SIGN_PUBLIC_KEY cfg), store)
  end.

(** [app.get('/download/:token', ...)] at the instant [now]. *)
Definition download (token : string) (now : Z)
    (store : gmap string Store.Entry) : response * gmap string Store.Entry :=
  let '(entry, store) := Store.get token now store in
  match entry with
  | None => (Status404 "Link expired or not found.", store)
  | Some entry =>
      (SendZip "application/zip"
               ("attachment; filename=" +:+ String.String dquote
                  ("trancheready-evidence.zip" +:+ String.String dquote ""))
               (Store.zipBuffer entry),
       store)
  end.

(** What [/upload] sends: the JSON body with the scores and the two links,
    or the status 500 of the [catch]. *)
Inductive upload_response : Type :=
| UploadOk (risk : list RiskScoreResult) (verify_url download_url : string)
| Upload500 (error : string).

Section Upload.

(** The primitives of the manifest builder. *)
Variable sha256_digest : list Byte.byte -> list Byte.byte.
Variable json_bytes : list Manifest.FileEntry -> string -> string -> option (list Byte.byte).
Variable base64_decode : string -> option (list Byte.byte).
Variable nacl_sign_detached : list Byte.byte -> list Byte.byte -> option (list Byte.byte).
Variable base64_encode : list Byte.byte -> option string.

(** The serialisations of the route: [Buffer.from(JSON.stringify(x, null, 2))]
    of the clients, of the transactions, of [buildCases(txs, lookback)] and
    of the manifest, and the bytes of the rendered program page. *)
Variable clients_blob : list Client -> list Byte.byte.
Variable transactions_blob : list Transaction -> list Byte.byte.
Variable cases_blob : list Transaction -> Lookback -> list Byte.byte.
Variable program_blob : RulesMeta -> list Byte.byte.
Variable manifest_blob : Manifest.t -> list Byte.byte.

(** [zipNamedBuffers], [None] when its promise rejects, and
    [new URL(path, base).toString()], [None] when the constructor throws
    (a base that is no absolute URL). *)
Variable zipNamedBuffers : list (string * list Byte.byte) -> option (list Byte.byte).
Variable url_string : string -> string -> option string.

(** The body of the [/upload] route from the normalised records on, at
    the instant [now] ([now_iso] as the manifest's timestamp), with
    [randomBytes] the bytes drawn for the token.  The two links are built
    inside the argument of [res.json], after [verifyStore.put] and within
    the same [try]: when [new URL] throws, the [catch] answers 500 and
    the entry is in the store. *)
Definition upload (cfg : Manifest.Cfg) (APP_ORIGIN : string) (VERIFY_TTL_MIN : Z)
    (now : Z) (now_iso : string) (randomBytes : list Byte.byte)
    (clients : list Client) (txs : list Transaction) (lookback : Lookback)
    (store : gmap string Store.Entry)
    : upload_response * gmap string Store.Entry :=
  let out := scoreAll clients txs lookback in
  let files :=
    [("clients.json", clients_blob clients);
     ("transactions.json", transactions_blob txs);
     ("cases.json", cases_blob txs lookback);
     ("program.html", program_blob (rulesMeta out))] in
  let manifest :=
    Manifest.buildManifest sha256_digest json_bytes base64_decode nacl_sign_detached
      base64_encode cfg now_iso files (rulesMeta out) in
  match zipNamedBuffers (files ++ [("manifest.json", manifest_blob manifest)]) with
  | None => (Upload500 "Processing failed.", store)
  | Some zipBuffer =>
      let token := newToken randomBytes in
      let store := Store.put token zipBuffer manifest VERIFY_TTL_MIN now store in
      match url_string ("/verify/" +:+ token) APP_ORIGIN with
      | None => (Upload500 "Processing failed.", store)
      | Some verify_url =>
          match url_string ("/download/" +:+ token) APP_ORIGIN with
          | None => (Upload500 "Processing failed.", store)
          | Some download_url =>
              (UploadOk (scores out) verify_url download_url, store)
          end
      end
  end.

End Upload.

End Server.

(** Stand-ins for the primitives in the examples of the routes: an archive
    that is the concatenation of its blobs, and a URL that is the base
    followed by the path. *)
Definition sample_zip (files : list (string * list Byte.byte)) : option (list Byte.byte) :=
  Some (concat (map snd files)).

Definition sample_url (path base : string) : string := base +:+ path.

Definition sample_upload :=
  Server.upload (λ _, []) (λ _ _ _, None) (λ _, None) (λ _ _, None) (λ _, None)
    (λ _, [Byte.x01]) (λ _, [Byte.x02]) (λ _ _, [Byte.x03]) (λ _, [Byte.x04])
    (λ _, [Byte.x05]) sample_zip (λ path base, Some (sample_url path base))
    {| Manifest.SIGN_PRIVATE_KEY := ""; Manifest.SIGN_PUBLIC_KEY := "" |}
    "http://localhost:10000" 60 1000 "2025-11-01T00:00:00.000Z"
    (replicate 16 Byte.xa7)
    [plain_client "c1"] [cash_deposit "c1" 3] {| start := 0; end_ := 30 |} ∅.

(** ** HTML escaping and the program page *)

(** The replacement of one character by the global [replace] of the
    routes: ampersand, angle brackets, double and single quote become
    entities, any other character stays. *)
Definition escape_char (c : ascii) : string :=
  if Ascii.eqb c "&" then "&amp;"
  else if Ascii.eqb c "<" then "&lt;"
  else if Ascii.eqb c ">" then "&gt;"
  else if Ascii.eqb c dquote then "&quot;"
  else if Ascii.eqb c "'" then "&#39;"
  else String.String c "".

(** [escapeHtml(s)] of the server. *)
Fixpoint escapeHtml (s : string) : string :=
  match s with
  | "" => ""
  | String.String c s' => escape_char c +:+ escapeHtml s'
  end.

(** [esc(s)] of [public/app.js]: [(s ?? '').toString()], then the same
    replacement. *)
Definition esc (s : Js.value) : string :=
  escapeHtml (Js.String (match s with
                         | Js.Undefined | Js.Null => Js.Str ""
                         | _ => s
                         end)).

(** The number of occurrences of a character. *)
Fixpoint count_char (c : ascii) (s : string) : nat :=
  match s with
  | "" => 0
  | String.String c' s' => (if Ascii.eqb c' c then 1 else 0) + count_char c s'
  end.

(** [renderProgramHTML(rulesMeta, clientHeaderMap, txHeaderMap, rejects)],
    on the three texts that its calls of [JSON.stringify(_, null, 2)]
    produce and the timestamp of [new Date().toISOString()]. *)
Definition renderProgramHTML (now_iso rulesMeta_json headers_json rejects_json : string)
    : string :=
  String.concat ""
    [ "<!doctype html><meta charset=" +:+ String.String dquote "utf-8"
        +:+ String.String dquote "><title>TrancheReady Evidence</title>";
      "<style>body{font-family:ui-sans-serif,system-ui,-apple-system,Segoe UI,Roboto,Helvetica,Arial;line-height:1.55;padding:24px;color:#0D1321} code,pre{font-family:ui-monospace,Menlo,Consolas,monospace;background:#F7F9FD;border:1px solid #E6EAF2;border-radius:8px;padding:10px;display:block;overflow:auto}</style>";
      "<h1>TrancheReady Evidence</h1>";
      "<p>Generated: " +:+ now_iso +:+ "</p>";
      "<h2>Ruleset</h2>";
      "<pre>" +:+ escapeHtml rulesMeta_json +:+ "</pre>";
      "<h2>Header Mapping</h2>";
      "<pre>" +:+ escapeHtml headers_json +:+ "</pre>";
      "<h2>Row Rejects</h2>";
      "<pre>" +:+ escapeHtml rejects_json +:+ "</pre>" ].

(** ** The request id ([lib/request-id.js]) *)

Module RequestId.

(** A header of [req.headers]: a string, or an array of strings. *)
Inductive header : Type :=
| Text (s : string)
| Several (l : list string).

Record request : Type := {
  headers : gmap string header;
  ip : option string;
  method : string;
  url : string
}.

(** [ToBoolean] of [h[name]]: absent and the empty string are false, an
    array is true. *)
Definition truthy (h : option header) : bool :=
  match h with
  | Some (Text s) => negb (String.eqb s "")
  | Some (Several _) => true
  | None => false
  end.

(** [a || b] *)
Definition or (a b : option header) : option header := if truthy a then a else b.

(** [typeof prior === 'string'] *)
Definition is_string (h : option header) : bool :=
  match h with
  | Some (Text _) => true
  | _ => false
  end.

(** The string that a string-valued header is. *)
Definition text_of (h : option header) : string :=
  match h with
  | Some (Text s) => s
  | _ => ""
  end.

(** [prior.slice(0, n)] *)
Definition slice0 (n : nat) (s : string) : string := String.substring 0 n s.

Section ReqId.

(** [crypto.createHash('sha1').update(seed).digest()] *)
Variable sha1_digest : string -> list Byte.byte.

(** [reqIdFromHeaders(req)] at the instant [now], with [random] the text
    of the number that [Math.random()] returns. *)
Definition reqIdFromHeaders (req : request) (now : Z) (random : string) : string :=
  let h := headers req in
  let prior :=
    or (or (or (h !! "x-request-id") (h !! "x-correlation-id")) (h !! "cf-ray"))
       (h !! "x-amzn-trace-id") in
  if truthy prior && is_string prior then slice0 128 (text_of prior)
  else
    let seed := default "" (ip req) +:+ "|" +:+ method req +:+ "|" +:+ url req
                +:+ "|" +:+ pretty now +:+ "|" +:+ random in
    slice0 16 (Manifest.hex (sha1_digest seed)).

End ReqId.

End RequestId.

(** ** The risk table of [public/app.js] *)

Module App.

(** The class of the badge in [renderRisk]: from
    [(item.band||'').toLowerCase()]. *)
Definition badge_class (item : RiskScoreResult) : string :=
  let band := Js.toLowerCase (Js.String (Js.or (Js.Str (band item)) (Js.Str ""))) in
  if String.eqb band "high" then "high"
  else if String.eqb band "medium" then "med"
  else "low".

(** [(item.reasons||[]).filter(r => r.type === 'reason')] *)
Definition shown_reasons (item : RiskScoreResult) : list TaggedReason :=
  filter (λ r, type r = "reason") (reasons item).

(** The text of a reason's tag: the family, then the points unless they
    are 0. *)
Definition tag_text (r : TaggedReason) : string :=
  family (spread r)
  +:+ (if (points (spread r) =? 0)%Z then "" else " +" +:+ pretty (points (spread r))).

End App.

(** Stand-ins for the primitives in the examples of the manifest: signing
    that succeeds. *)
Definition sample_build (cfg : Manifest.Cfg) (meta : RulesMeta) : Manifest.t :=
  Manifest.buildManifest (λ _, [Byte.x00]) (λ _ _ _, Some [Byte.x01]) (λ _, Some [Byte.x02])
    (λ msg secret, Some (msg ++ secret)) (λ _, Some "AQI=") cfg
    "2025-11-01T00:00:00.000Z" [("clients.json", [Byte.x7b; Byte.x7d])] meta.

Definition sample_meta (lb : Lookback) : RulesMeta :=
  rulesMeta (scoreAll [] [] lb).

Definition sample_request (hs : list (string * RequestId.header)) : RequestId.request :=
  {| RequestId.headers := list_to_map hs;
     RequestId.ip := Some "10.0.0.1";
     RequestId.method := "GET";
     RequestId.url := "/healthz" |}.

(** A second stand-in upload, with the token bytes and the store left
    open. *)
Definition sample_upload_on (randomBytes : list Byte.byte)
    (store : gmap string Store.Entry) :=
  Server.upload (λ _, []) (λ _ _ _, None) (λ _, None) (λ _ _, None) (λ _, None)
    (λ _, [Byte.x01]) (λ _, [Byte.x02]) (λ _ _, [Byte.x03]) (λ _, [Byte.x04])
    (λ _, [Byte.x05]) sample_zip (λ path base, Some (sample_url path base))
    {| Manifest.SIGN_PRIVATE_KEY := ""; Manifest.SIGN_PUBLIC_KEY := "" |}
    "http://localhost:10000" 60 2000 "2025-11-01T00:00:01.000Z"
    randomBytes
    [plain_client "c2"] [] {| start := 0; end_ := 30 |} store.

(** ** The claims in the words of the specification *)

#[global] Instance Qle_dec (x y : Q) : Decision (x <= y)%Q.
Proof.
  destruct (Qlt_le_dec y x) as [H|H]; [right; by apply Qlt_not_le|by left].
Defined.

(** A transaction that counts for the structuring rule of a client: the
    client's own, dated on or after [lookback.start], cash, inbound, in AUD,
    of an amount from 9600 to 9999. *)
Definition structuring_candidate (lookback : Lookback) (c : Client) (t : Transaction)
    : Prop :=
  tx_client_id t = client_id c ∧ start lookback ≤ date t
  ∧ method t = "cash" ∧ direction t = "in" ∧ currency t = "AUD"
  ∧ (9600 <= amount t)%Q ∧ (amount t <= 9999)%Q.

#[global] Instance structuring_candidate_dec lookback c t :
  Decision (structuring_candidate lookback c t).
Proof. unfold structuring_candidate. apply _. Defined.

(** At least four of the given transactions, with dates that span at most
    7 calendar days: no date of the four is more than 7 days after
    another. *)
Definition four_within_7_days (l : list Transaction) : Prop :=
  ∃ w : list Transaction,
    w ⊆+ l ∧ (4 ≤ length w)%nat ∧ ∀ a b, a ∈ w → b ∈ w → date b - date a ≤ 7.

(** No profile rule applies to the client: neither flag reads "true", the
    KYC review, if it has a date, is at most 365 days before
    [lookback.end], the channel text does not contain "online", the
    services text contains neither "remittance" nor "property" (whatever
    the case of the letters), and the residency country, an ASCII text
    as an ISO code is, is none of the six high-risk codes in whatever
    case. *)
Definition without_profile_signals (lookback : Lookback) (c : Client) : Prop :=
  Js.toLowerCase (Js.String (pep_flag c)) ≠ "true"
  ∧ Js.toLowerCase (Js.String (sanctions_flag c)) ≠ "true"
  ∧ (∀ kd, kyc_last_reviewed_at c = KycOn kd → end_ lookback - kd ≤ 365)
  ∧ (¬ ∃ a b, Js.toLowerCase (Js.String (Js.or (delivery_channel c) (Js.Str "")))
              = a +:+ "online" +:+ b)
  ∧ (¬ ∃ a b, Js.toLowerCase (Js.String (Js.or (services c) (Js.Str "")))
              = a +:+ "remittance" +:+ b)
  ∧ (¬ ∃ a b, Js.toLowerCase (Js.String (Js.or (services c) (Js.Str "")))
              = a +:+ "property" +:+ b)
  ∧ ascii_text (Js.String (Js.or (residency_country c) (Js.Str "")))
  ∧ Js.toUpperCase (Js.String (Js.or (residency_country c) (Js.Str "")))
    ∉ ["RU"; "CN"; "HK"; "AE"; "IN"; "IR"].

(** Whether, in a sequence of calls, a [get] on the token comes at an
    instant after the expiry [exp]: the lazy eviction of the token's
    entry. *)
Definition evicted (token : string) (exp : Z) (calls : list (Z * Store.call)) : bool :=
  existsb (λ c, match c.2 with
                | Store.Get token' => bool_decide (token' = token) && (exp <? c.1)%Z
                | Store.Put _ _ _ _ => false
                end) calls.

(** * Properties *)

(** ** Sorting by date *)

Section SortByDate.

Implicit Types (t : Transaction) (l : list Transaction).

Lemma insert_by_date_perm t l : insert_by_date t l ≡ₚ t :: l.
Proof.
  induction l as [|u l IH]; simpl; [done|].
  case_match; [done|].
  by rewrite IH, Permutation_swap.
Qed.

Lemma sort_by_date_perm l : sort_by_date l ≡ₚ l.
Proof.
  induction l as [|t l IH]; simpl; [done|].
  by rewrite insert_by_date_perm, IH.
Qed.

Lemma insert_by_date_sorted t l :
  StronglySorted date_le l → StronglySorted date_le (insert_by_date t l).
Proof.
  induction 1 as [|u l Hl IH Hu]; simpl.
  - repeat constructor.
  - case_match eqn:Hle.
    + apply Z.leb_le in Hle. constructor; [by constructor|].
      constructor; [done|].
      eapply Forall_impl; [exact Hu|]. unfold date_le. intros; lia.
    + apply Z.leb_gt in Hle. constructor; [done|].
      rewrite insert_by_date_perm. constructor; [|done].
      unfold date_le. lia.
Qed.

Lemma sort_by_date_sorted l : StronglySorted date_le (sort_by_date l).
Proof.
  induction l; simpl; [constructor|by apply insert_by_date_sorted].
Qed.

Lemma sort_by_date_id l : StronglySorted date_le l → sort_by_date l = l.
Proof.
  induction 1 as [|t l Hl IH Ht]; simpl; [done|].
  rewrite IH. destruct l as [|u l]; simpl; [done|].
  apply Forall_cons_1 in Ht as [Htu _]. unfold date_le in Htu.
  by rewrite (proj2 (Z.leb_le _ _) Htu).
Qed.

Lemma sort_by_date_idemp l : sort_by_date (sort_by_date l) = sort_by_date l.
Proof. apply sort_by_date_id, sort_by_date_sorted. Qed.

(** Stability: entries of one date keep their input order. *)
Lemma insert_by_date_stable d t l :
  filter (λ u, date u = d) (insert_by_date t l) = filter (λ u, date u = d) (t :: l).
Proof.
  induction l as [|u l IH]; simpl; [done|].
  case_match eqn:Hle; [done|]. apply Z.leb_gt in Hle.
  rewrite filter_cons, IH, !filter_cons.
  repeat case_decide; try done; lia.
Qed.

Lemma sort_by_date_stable d l :
  filter (λ u, date u = d) (sort_by_date l) = filter (λ u, date u = d) l.
Proof.
  induction l as [|t l IH]; simpl; [done|].
  by rewrite insert_by_date_stable, !filter_cons, IH.
Qed.

Lemma filter_sorted (P : Transaction → Prop) `{!∀ t, Decision (P t)} l :
  StronglySorted date_le l → StronglySorted date_le (filter P l).
Proof.
  induction 1 as [|t l Hl IH Ht]; [constructor|].
  rewrite filter_cons. case_decide; [|done].
  constructor; [done|].
  apply Forall_forall. intros u [_ Hu]%list_elem_of_filter.
  by eapply Forall_forall in Ht.
Qed.

End SortByDate.

(** ** The structuring loop *)

Section Structuring.

Implicit Types (t : Transaction) (l w : list Transaction).

Lemma submseteq_filter_length (P : Transaction → Prop) `{!∀ t, Decision (P t)} w l :
  w ⊆+ l → Forall P w → (length w ≤ length (filter P l))%nat.
Proof.
  intros [k Hk]%submseteq_Permutation Hw.
  rewrite Hk, filter_app, length_app.
  assert (filter P w = w) as ->; [|lia].
  clear Hk. induction Hw as [|t w Ht Hw IH]; [done|].
  rewrite filter_cons_True by done. by rewrite IH.
Qed.

#[global] Instance structuring_window_perm : Proper ((≡ₚ) ==> iff) structuring_window.
Proof.
  intros l1 l2 Hl. unfold structuring_window.
  split; intros (w & Hw & Hn & H7); exists w; split_and!; try done.
  - by rewrite <- Hl.
  - by rewrite Hl.
Qed.

Lemma structuring_window_length l : structuring_window l → (4 ≤ length l)%nat.
Proof.
  intros (w & Hw & Hn & _). apply submseteq_length in Hw. lia.
Qed.

Lemma structured_loop_cons t l :
  structured_loop (t :: l) =
  if (4 <=? S (length (filter (λ tj, (daysBetween (date t) (date tj) ≤ 7)%Z) l)))%nat
  then true else structured_loop l.
Proof. reflexivity. Qed.

(** Whatever the order of [cashIn], a window makes the loop succeed: its
    first member in list order is an anchor. *)
Lemma structured_loop_complete l : structuring_window l → structured_loop l = true.
Proof.
  induction l as [|t l IH]; intros (w & Hw & Hn & H7).
  - apply submseteq_nil_r in Hw as ->. simpl in Hn. lia.
  - rewrite structured_loop_cons.
    apply submseteq_cons_r in Hw as [Hw|(w' & Hperm & Hw')].
    + rewrite IH; [by case_match|]. by exists w.
    + assert (length w = S (length w')) as Hlen by (by rewrite Hperm).
      assert (length w' ≤ length (filter (λ tj, (daysBetween (date t) (date tj) ≤ 7)%Z) l))%nat
        as Hle.
      { apply submseteq_filter_length; [done|].
        apply Forall_forall. intros b Hb. apply H7; rewrite Hperm.
        - apply list_elem_of_here.
        - by apply list_elem_of_further. }
      case_match eqn:Hc; [done|]. apply Nat.leb_gt in Hc. lia.
Qed.

(** On a list ordered by date, an anchor with three later entries within
    7 days gives four entries that pairwise are within 7 days. *)
Lemma structured_loop_sound l :
  StronglySorted date_le l → structured_loop l = true → structuring_window l.
Proof.
  induction 1 as [|t l Hl IH Ht]; [done|].
  rewrite structured_loop_cons. case_match eqn:Hc.
  - intros _. apply Nat.leb_le in Hc.
    exists (t :: filter (λ tj, daysBetween (date t) (date tj) ≤ 7) l).
    split_and!; [|done|].
    + apply submseteq_skip, sublist_submseteq, sublist_filter.
    + assert (∀ a, a ∈ t :: filter (λ tj, daysBetween (date t) (date tj) ≤ 7) l →
                   date t ≤ date a ≤ date t + 7) as Hin.
      { intros a [->|[Ha Hal]%list_elem_of_filter]%elem_of_cons; [lia|].
        eapply Forall_forall in Ht; [|done].
        unfold date_le, daysBetween in *. lia. }
      intros a b Ha%Hin Hb%Hin. unfold daysBetween. lia.
  - intros (w & Hw & Hn & H7)%IH. exists w. split_and!; try done.
    by apply submseteq_cons.
Qed.

Lemma structured_loop_spec l :
  structured_loop (filter (λ t, is_cashIn t) (sort_by_date l)) = true
  ↔ structuring_window (filter (λ t, is_cashIn t) l).
Proof.
  rewrite <- (sort_by_date_perm l) at 2. split.
  - apply structured_loop_sound, filter_sorted, sort_by_date_sorted.
  - apply structured_loop_complete.
Qed.

End Structuring.

(** ** The two loops of [scoreAll] *)

Section ScoreAll.

Variable lb : Lookback.

Lemma in_lookback_spec t : in_lookback lb t = true ↔ start lb ≤ date t.
Proof.
  unfold in_lookback. rewrite orb_true_iff, Z.ltb_lt, Z.eqb_eq. lia.
Qed.

(** The array of a key holds what it held, then the key's in-window
    transactions in input order. *)
Lemma index_foldl_lookup txs (m : gmap string (list Transaction)) k :
  default [] (foldl (index_step lb) m txs !! k) =
  default [] (m !! k) ++ filter (λ t, tx_client_id t = k ∧ start lb ≤ date t) txs.
Proof.
  revert m. induction txs as [|t txs IH]; intros m; simpl.
  - by rewrite app_nil_r.
  - rewrite IH, filter_cons. unfold index_step.
    destruct (in_lookback lb t) eqn:Hin.
    + apply in_lookback_spec in Hin.
      destruct (decide (tx_client_id t = k)) as [->|Hne].
      * rewrite lookup_insert_eq, decide_True by done. simpl.
        by rewrite <- app_assoc.
      * rewrite lookup_insert_ne, decide_False by tauto. done.
    + rewrite decide_False; [done|].
      intros [_ Hle]. apply in_lookback_spec in Hle. congruence.
Qed.

Lemma index_txs_lookup txs c :
  default [] (index_txs lb txs !! client_id c) = filter (selected lb c) txs.
Proof.
  unfold index_txs. by rewrite index_foldl_lookup, lookup_empty.
Qed.

(** Sorting an array in place does not change what later iterations
    compute from it. *)
Lemma alter_sort_lookup (m : gmap string (list Transaction)) k k' :
  sort_by_date (default [] (alter sort_by_date k m !! k')) =
  sort_by_date (default [] (m !! k')).
Proof.
  destruct (decide (k = k')) as [->|Hne].
  - rewrite lookup_alter_eq. destruct (m !! k'); simpl; [|done].
    apply sort_by_date_idemp.
  - by rewrite lookup_alter_ne.
Qed.

Lemma score_loop_spec txs clients (m : gmap string (list Transaction)) results :
  (∀ c, sort_by_date (default [] (m !! client_id c)) =
        sort_by_date (filter (selected lb c) txs)) →
  score_loop lb clients m results =
  results ++ map (λ c, score_of lb c (filter (selected lb c) txs)) clients.
Proof.
  revert m results. induction clients as [|c clients IH]; intros m results Hm; simpl.
  - by rewrite app_nil_r.
  - rewrite IH.
    + rewrite <- app_assoc. simpl. unfold score_of. by rewrite Hm.
    + intros c'. by rewrite alter_sort_lookup.
Qed.

(** The results of [scoreAll], client by client. *)
Lemma scoreAll_scores clients txs :
  scores (scoreAll clients txs lb) =
  map (λ c, score_of lb c (filter (selected lb c) txs)) clients.
Proof.
  unfold scoreAll. simpl. rewrite (score_loop_spec txs); [done|].
  intros c. by rewrite index_txs_lookup.
Qed.

(** A property of each client's result follows from the property of
    [score_of] on the client's selected transactions. *)
Lemma scoreAll_Forall2 (P : Client → RiskScoreResult → Prop) clients txs :
  (∀ c, P c (score_of lb c (filter (selected lb c) txs))) →
  Forall2 P clients (scores (scoreAll clients txs lb)).
Proof.
  intros HP. rewrite scoreAll_scores. apply Forall2_fmap_r.
  apply Forall_Forall2_diag, Forall_forall. intros c _. apply HP.
Qed.

End ScoreAll.

(** ** Score, reasons and band *)

Section ScoreSum.

Lemma sum_points_snoc (l : list Reason) r :
  sum_points (map tagged (l ++ [r])) = sum_points (map tagged l) + points r.
Proof.
  induction l as [|r' l IH]; simpl; [lia|].
  unfold sum_points in *. simpl. rewrite IH. lia.
Qed.

Lemma hit_ok cond add r st : add = points r → acc_ok st → acc_ok (hit cond add r st).
Proof.
  unfold acc_ok, hit. intros -> Hst. destruct cond; [|done]. simpl.
  by rewrite sum_points_snoc, Hst.
Qed.

Lemma profile_signals_ok lb c st : acc_ok st → acc_ok (profile_signals lb c st).
Proof.
  intros Hst. unfold profile_signals.
  destruct (kyc_last_reviewed_at c); repeat (apply hit_ok; [reflexivity|]); done.
Qed.

Lemma behaviour_signals_ok txlist st : acc_ok st → acc_ok (behaviour_signals txlist st).
Proof.
  intros Hst. unfold behaviour_signals.
  repeat (apply hit_ok; [reflexivity|]); done.
Qed.

Lemma score_of_sum lb c txs : score (score_of lb c txs) = sum_points (reasons (score_of lb c txs)).
Proof.
  unfold score_of, result_of. simpl.
  apply behaviour_signals_ok, profile_signals_ok. reflexivity.
Qed.

Lemma toBand_High s : toBand s = "High" ↔ 30 ≤ s.
Proof.
  unfold toBand. destruct (Z.leb_spec 30 s), (Z.leb_spec 15 s);
    (split; [try discriminate|]); intros; try done; lia.
Qed.

Lemma toBand_Medium s : toBand s = "Medium" ↔ 15 ≤ s < 30.
Proof.
  unfold toBand. destruct (Z.leb_spec 30 s), (Z.leb_spec 15 s);
    (split; [try discriminate|]); intros; try done; lia.
Qed.

Lemma toBand_Low s : toBand s = "Low" ↔ s < 15.
Proof.
  unfold toBand. destruct (Z.leb_spec 30 s), (Z.leb_spec 15 s);
    (split; [try discriminate|]); intros; try done; lia.
Qed.

End ScoreSum.

(** C1. For every list of clients, every list of transactions and every
    lookback window, each result of [scoreAll] has a score equal to the
    sum of the points of its reasons, and its band is ['High'] exactly
    when the score is at least 30, ['Medium'] exactly when the score is at
    least 15 and below 30, and ['Low'] exactly when it is below 15. *)
Theorem scoreAll_score_sum_band (clients : list Client) (txs : list Transaction)
    (lb : Lookback) :
  Forall (λ r,
            score r = sum_points (reasons r)
            ∧ (band r = "High" ↔ 30 ≤ score r)
            ∧ (band r = "Medium" ↔ 15 ≤ score r < 30)
            ∧ (band r = "Low" ↔ score r < 15))
         (scores (scoreAll clients txs lb)).
Proof.
  rewrite scoreAll_scores. apply Forall_fmap, Forall_forall. intros c _. simpl.
  split; [apply score_of_sum|].
  split_and!; [apply toBand_High|apply toBand_Medium|apply toBand_Low].
Qed.

(** ** The rule catalogue: which reasons a result holds *)

Section Catalogue.

Lemma elem_of_hit r cond add r' st :
  r ∈ (hit cond add r' st).2 ↔ r ∈ st.2 ∨ (cond = true ∧ r = r').
Proof.
  unfold hit. destruct cond; simpl.
  - rewrite elem_of_app, list_elem_of_singleton. naive_solver.
  - naive_solver.
Qed.

Lemma elem_of_tagged r (l : list Reason) : tagged r ∈ map tagged l ↔ r ∈ l.
Proof.
  split.
  - intros (r' & Heq & Hr')%list_elem_of_fmap. by injection Heq as ->.
  - intros Hr. by apply (list_elem_of_fmap_2 tagged).
Qed.

Lemma elem_of_profile_signals lb c st r :
  r ∈ (profile_signals lb c st).2 ↔
    r ∈ st.2
    ∨ (flag_set (pep_flag c) = true ∧ r = reason "profile" "PEP flag" 20)
    ∨ (flag_set (sanctions_flag c) = true ∧ r = reason "profile" "Sanctions flag" 25)
    ∨ ((∃ kd, kyc_last_reviewed_at c = KycOn kd ∧ (365 <? end_ lb - kd) = true)
       ∧ r = reason "profile" "Stale KYC > 12 months" 5)
    ∨ (Js.includes (Js.toLowerCase (Js.String (Js.or (delivery_channel c) (Js.Str ""))))
                   "online" = true
       ∧ r = reason "profile" "Online channel" 3)
    ∨ (Js.includes (Js.toLowerCase (Js.String (Js.or (services c) (Js.Str ""))))
                   "remittance" = true
       ∧ r = reason "profile" "Remittance service" 6)
    ∨ (Js.includes (Js.toLowerCase (Js.String (Js.or (services c) (Js.Str ""))))
                   "property" = true
       ∧ r = reason "profile" "Property service" 4)
    ∨ (HR_has (Js.toUpperCase (Js.String (Js.or (residency_country c) (Js.Str ""))))
       = true
       ∧ r = reason "profile" "High-risk residency" 8).
Proof.
  unfold profile_signals.
  destruct (kyc_last_reviewed_at c) as [| |kd]; rewrite !elem_of_hit; naive_solver.
Qed.

Lemma elem_of_behaviour_signals txlist st r :
  r ∈ (behaviour_signals txlist st).2 ↔
    r ∈ st.2
    ∨ (structured_loop (filter (λ t, is_cashIn t) txlist) = true
       ∧ r = structuring_reason)
    ∨ (((2 <=? length (filter (λ t, is_intlHR t) txlist))%nat
        && existsb (λ t, Qle_bool 20000 (amount t)) (filter (λ t, is_intlHR t) txlist)
        = true)
       ∧ r = reason "behaviour" "High-risk corridor transfers (≥2; one ≥ 20k)" 10)
    ∨ ((1 <=? length (filter (λ t, is_largeAU t) txlist))%nat = true
       ∧ r = reason "behaviour" "Large domestic transfer ≥ 100k" 8).
Proof.
  unfold behaviour_signals. rewrite !elem_of_hit. naive_solver.
Qed.

Lemma elem_of_score_of lb c txs r :
  tagged r ∈ reasons (score_of lb c txs) ↔
    r ∈ (profile_signals lb c (0, [])).2
    ∨ r ∈ (behaviour_signals (sort_by_date txs) (0, [])).2.
Proof.
  unfold score_of, result_of. simpl.
  change (map _ ?l) with (map tagged l).
  rewrite elem_of_tagged, !elem_of_behaviour_signals. simpl.
  rewrite elem_of_nil. naive_solver.
Qed.

End Catalogue.

(** ** Structuring *)

Lemma structuring_emitted lb c txs :
  tagged structuring_reason ∈ reasons (score_of lb c txs)
  ↔ structured_loop (filter (λ t, is_cashIn t) (sort_by_date txs)) = true.
Proof.
  rewrite elem_of_score_of, elem_of_profile_signals, elem_of_behaviour_signals.
  simpl. rewrite elem_of_nil. unfold structuring_reason, reason.
  split; [|tauto].
  intros H. repeat destruct H as [H|H]; try done; destruct H as [H ?]; done.
Qed.

(** The filter and the distance of the code, in the words of the
    specification. *)
Lemma is_cashIn_spec t :
  is_cashIn t = true
  ↔ method t = "cash" ∧ direction t = "in" ∧ currency t = "AUD"
    ∧ (9600 <= amount t)%Q ∧ (amount t <= 9999)%Q.
Proof.
  unfold is_cashIn. rewrite !andb_true_iff, !String.eqb_eq, !Qle_bool_iff. tauto.
Qed.

Lemma qualifying_candidates lb c txs :
  qualifying lb c txs = filter (structuring_candidate lb c) txs.
Proof.
  unfold qualifying. rewrite list_filter_filter. apply list_filter_iff. intros t.
  rewrite Is_true_true, is_cashIn_spec. unfold selected, structuring_candidate. tauto.
Qed.

Lemma structuring_window_spec l : structuring_window l ↔ four_within_7_days l.
Proof.
  unfold structuring_window, four_within_7_days, daysBetween.
  split; intros (w & Hw & Hn & H7); exists w; split_and!; try done.
  - intros a b Ha Hb. specialize (H7 a b Ha Hb). lia.
  - intros a b Ha Hb. pose proof (H7 a b Ha Hb). pose proof (H7 b a Hb Ha). lia.
Qed.

(** C2. For every client, the structuring reason (+12) is among the
    reasons of the client's result exactly when, among the client's
    transactions dated on or after [lookback.start] that are cash, inbound,
    in AUD and of an amount from 9600 to 9999, there are at least four
    whose dates span at most 7 calendar days (no date of the four is more
    than 7 days after another).  In particular three such transactions
    never trigger it, and four such transactions of which two are 8 days
    apart never trigger it. *)
Theorem structuring_iff_window (clients : list Client) (txs : list Transaction)
    (lb : Lookback) :
  Forall2 (λ c r,
             (tagged (reason "behaviour"
                        "Structuring pattern (≥4 cash deposits 9.6–9.999k in 7 days)" 12)
                ∈ reasons r
              ↔ four_within_7_days (filter (structuring_candidate lb c) txs))
             ∧ (length (filter (structuring_candidate lb c) txs) = 3%nat →
                tagged (reason "behaviour"
                          "Structuring pattern (≥4 cash deposits 9.6–9.999k in 7 days)" 12)
                  ∉ reasons r)
             ∧ (length (filter (structuring_candidate lb c) txs) = 4%nat →
                (∃ a b, a ∈ filter (structuring_candidate lb c) txs
                        ∧ b ∈ filter (structuring_candidate lb c) txs
                        ∧ date b - date a = 8) →
                tagged (reason "behaviour"
                          "Structuring pattern (≥4 cash deposits 9.6–9.999k in 7 days)" 12)
                  ∉ reasons r))
          clients (scores (scoreAll clients txs lb)).
Proof.
  apply scoreAll_Forall2. intros c.
  change (reason "behaviour" _ 12) with structuring_reason.
  rewrite structuring_emitted, structured_loop_spec.
  fold (qualifying lb c txs).
  rewrite structuring_window_spec, qualifying_candidates.
  split_and!; [done| |].
  - intros Hlen (w & Hw%submseteq_length & Hn & _). lia.
  - intros Hlen (a & b & Ha & Hb & Hab) (w & Hw & Hn & H7).
    assert (w ≡ₚ filter (structuring_candidate lb c) txs) as Hperm.
    { apply submseteq_length_Permutation; [done|lia]. }
    specialize (H7 a b). rewrite Hperm in H7. specialize (H7 Ha Hb). lia.
Qed.

(** ** Independence of the input order of the transactions *)

Section Order.

Lemma existsb_perm (f : Transaction → bool) l1 l2 :
  l1 ≡ₚ l2 → existsb f l1 = existsb f l2.
Proof.
  intros Hl. apply eq_true_iff_eq. rewrite !existsb_exists.
  split; intros (t & Ht & Hf); exists t; split; try done.
  - by eapply Permutation_in.
  - eapply Permutation_in; [symmetry|]; done.
Qed.

Lemma structured_loop_perm l1 l2 :
  l1 ≡ₚ l2 →
  structured_loop (filter (λ t, is_cashIn t) (sort_by_date l1)) =
  structured_loop (filter (λ t, is_cashIn t) (sort_by_date l2)).
Proof.
  intros Hl. apply eq_true_iff_eq. rewrite !structured_loop_spec.
  by rewrite Hl.
Qed.

Lemma behaviour_signals_perm l1 l2 st :
  l1 ≡ₚ l2 →
  behaviour_signals (sort_by_date l1) st = behaviour_signals (sort_by_date l2) st.
Proof.
  intros Hl. unfold behaviour_signals.
  assert (sort_by_date l1 ≡ₚ sort_by_date l2) as Hs
    by (by rewrite !sort_by_date_perm).
  rewrite (structured_loop_perm l1 l2 Hl).
  assert (filter (λ t, is_intlHR t) (sort_by_date l1)
          ≡ₚ filter (λ t, is_intlHR t) (sort_by_date l2)) as Hi by (by rewrite Hs).
  assert (filter (λ t, is_largeAU t) (sort_by_date l1)
          ≡ₚ filter (λ t, is_largeAU t) (sort_by_date l2)) as Ha by (by rewrite Hs).
  rewrite (existsb_perm _ _ _ Hi).
  by rewrite (Permutation_length Hi), (Permutation_length Ha).
Qed.

Lemma score_of_perm lb c l1 l2 : l1 ≡ₚ l2 → score_of lb c l1 = score_of lb c l2.
Proof.
  intros Hl. unfold score_of. by rewrite (behaviour_signals_perm l1 l2).
Qed.

End Order.

(** C5. For every list of clients and lookback window, two transaction
    lists that are permutations of each other give the same output of
    [scoreAll]: the same results in the same client order, each with the
    same score, band and reasons in the same order, and the same ruleset
    metadata. *)
Theorem scoreAll_permutation (clients : list Client) (txs1 txs2 : list Transaction)
    (lb : Lookback) :
  txs1 ≡ₚ txs2 → scoreAll clients txs1 lb = scoreAll clients txs2 lb.
Proof.
  intros Hperm.
  assert (scores (scoreAll clients txs1 lb) = scores (scoreAll clients txs2 lb)) as Hs.
  { rewrite !scoreAll_scores. apply list_fmap_ext. intros _ c _.
    apply score_of_perm. by rewrite Hperm. }
  unfold scoreAll in *. simpl in Hs. by rewrite Hs.
Qed.

(** ** The transactions behind the behavioural rules *)

(** C7. For every client, the behavioural rules of [scoreAll] work on the
    transactions whose [client_id] is the client's and whose date is on or
    after [lookback.start], and on nothing else: the client's result is the
    one computed from that selection, and a transaction list with the same
    selection for the client gives the client the same result.  The
    boundary is inclusive: a transaction of the client dated exactly
    [lookback.start] is in the sorted list the rules run on. *)
Theorem behaviour_rules_selection (clients : list Client) (txs : list Transaction)
    (lb : Lookback) :
  Forall2 (λ c r,
             r = score_of lb c (filter (selected lb c) txs)
             ∧ (∀ t, t ∈ txs → tx_client_id t = client_id c → date t = start lb →
                     t ∈ sort_by_date (filter (selected lb c) txs)))
          clients (scores (scoreAll clients txs lb))
  ∧ (∀ (i : nat) (c : Client) (txs' : list Transaction),
       clients !! i = Some c →
       filter (selected lb c) txs' = filter (selected lb c) txs →
       scores (scoreAll clients txs' lb) !! i = scores (scoreAll clients txs lb) !! i).
Proof.
  split.
  - apply scoreAll_Forall2. intros c. split; [done|].
    intros t Ht Hid Hd. rewrite sort_by_date_perm.
    apply list_elem_of_filter. split; [|done]. unfold selected. split; [done|lia].
  - intros i c txs' Hc Hsel.
    rewrite !scoreAll_scores, !list_lookup_fmap, Hc. simpl. by rewrite Hsel.
Qed.

(** ** Empty inputs and clients without signals *)

Section Empty.

Lemma behaviour_signals_nil st : behaviour_signals (sort_by_date []) st = st.
Proof. reflexivity. Qed.

Lemma profile_signals_none lb c st : no_profile_signals lb c → profile_signals lb c st = st.
Proof.
  intros (Hpep & Hsanc & Hkyc & Hchan & Hrem & Hprop & Hrc).
  unfold profile_signals. rewrite Hpep, Hsanc, Hchan, Hrem, Hprop, Hrc. simpl.
  destruct (kyc_last_reviewed_at c) as [| |kd]; try done.
  by rewrite (proj2 (Z.ltb_ge _ _) Hkyc).
Qed.

Lemma profile_signals_family lb c r :
  r ∈ (profile_signals lb c (0, [])).2 → family r = "profile".
Proof.
  rewrite elem_of_profile_signals. simpl. rewrite elem_of_nil.
  intros H. repeat destruct H as [H|H]; try done; by destruct H as [_ ->].
Qed.

End Empty.

(** ** The PEP and sanctions flags *)

Section Flags.

(** The guard [|| ''] changes nothing: no falsy value prints as "true". *)
Lemma flag_set_spec v : flag_set v = true ↔ Js.toLowerCase (Js.String v) = "true".
Proof.
  unfold flag_set. rewrite String.eqb_eq. unfold Js.or.
  destruct v as [| |[]|n|s]; simpl; try done.
  - destruct (Z.eqb_spec n 0) as [->|]; simpl; [|done]. split; discriminate.
  - destruct (String.eqb_spec s "") as [->|]; simpl; [|done]. split; discriminate.
Qed.

Lemma pep_emitted lb c txs :
  tagged (reason "profile" "PEP flag" 20) ∈ reasons (score_of lb c txs)
  ↔ flag_set (pep_flag c) = true.
Proof.
  rewrite elem_of_score_of, elem_of_profile_signals, elem_of_behaviour_signals.
  simpl. rewrite elem_of_nil. unfold structuring_reason, reason.
  split; [|tauto].
  intros H. repeat destruct H as [H|H]; try done; destruct H as [H ?]; done.
Qed.

Lemma sanctions_emitted lb c txs :
  tagged (reason "profile" "Sanctions flag" 25) ∈ reasons (score_of lb c txs)
  ↔ flag_set (sanctions_flag c) = true.
Proof.
  rewrite elem_of_score_of, elem_of_profile_signals, elem_of_behaviour_signals.
  simpl. rewrite elem_of_nil. unfold structuring_reason, reason.
  split; [|tauto].
  intros H. repeat destruct H as [H|H]; try done; destruct H as [H ?]; done.
Qed.

End Flags.

(** C10. For every client, the PEP reason (+20) is among the reasons of
    its result exactly when [pep_flag], converted to a string and
    lower-cased, is ["true"], and likewise the sanctions reason (+25) for
    [sanctions_flag].  So the boolean [true] and the strings ['TRUE'],
    ['True'], ['true'] set a flag, while ['yes'], ['1'], the number 1,
    ['TRUE '] with a trailing blank, the empty string, [null] and an absent
    value do not. *)
Theorem flag_reasons (clients : list Client) (txs : list Transaction) (lb : Lookback) :
  Forall2 (λ c r,
             (tagged (reason "profile" "PEP flag" 20) ∈ reasons r
              ↔ Js.toLowerCase (Js.String (pep_flag c)) = "true")
             ∧ (tagged (reason "profile" "Sanctions flag" 25) ∈ reasons r
                ↔ Js.toLowerCase (Js.String (sanctions_flag c)) = "true")
             ∧ (pep_flag c ∈ [Js.Bool true; Js.Str "TRUE"; Js.Str "True"; Js.Str "true"] →
                tagged (reason "profile" "PEP flag" 20) ∈ reasons r)
             ∧ (pep_flag c ∈ [Js.Str "yes"; Js.Str "1"; Js.Number 1; Js.Str "TRUE ";
                              Js.Str ""; Js.Null; Js.Undefined] →
                tagged (reason "profile" "PEP flag" 20) ∉ reasons r)
             ∧ (sanctions_flag c ∈ [Js.Bool true; Js.Str "TRUE"; Js.Str "True";
                                    Js.Str "true"] →
                tagged (reason "profile" "Sanctions flag" 25) ∈ reasons r)
             ∧ (sanctions_flag c ∈ [Js.Str "yes"; Js.Str "1"; Js.Number 1; Js.Str "TRUE ";
                                    Js.Str ""; Js.Null; Js.Undefined] →
                tagged (reason "profile" "Sanctions flag" 25) ∉ reasons r))
          clients (scores (scoreAll clients txs lb)).
Proof.
  apply scoreAll_Forall2. intros c.
  rewrite pep_emitted, sanctions_emitted, <- !flag_set_spec.
  split_and!; try done; intros Hv;
    repeat (apply elem_of_cons in Hv as [->|Hv]; [by vm_compute|]);
    by apply elem_of_nil in Hv.
Qed.

(** ** The evidence token cache *)

Section StoreFacts.

Import Store.

Implicit Types (m : gmap string Entry) (calls : list (Z * call)).

Lemma get_absent token now m : m !! token = None → get token now m = (None, m).
Proof. unfold get. by intros ->. Qed.

Lemma get_fresh token now m v :
  m !! token = Some v → now ≤ exp v → get token now m = (Some v, m).
Proof.
  unfold get. intros -> Hle. by rewrite (proj2 (Z.ltb_ge _ _) Hle).
Qed.

Lemma get_stale token now m v :
  m !! token = Some v → exp v < now → get token now m = (None, delete token m).
Proof.
  unfold get. intros -> Hlt. by rewrite (proj2 (Z.ltb_lt _ _) Hlt).
Qed.

(** [get] leaves every entry as it is or removes it. *)
Lemma get_lookup token now m tok :
  (get token now m).2 !! tok = m !! tok ∨ (get token now m).2 !! tok = None.
Proof.
  unfold get. destruct (m !! token) as [v|] eqn:Hv; simpl; [|by left].
  case_match; simpl; [|by left].
  destruct (decide (token = tok)) as [->|Hne].
  - right. apply lookup_delete_eq.
  - left. by apply lookup_delete_ne.
Qed.

Lemma put_tokens_cons c calls :
  put_tokens (c :: calls) =
  match c.2 with Put token _ _ _ => token :: put_tokens calls | Get _ => put_tokens calls end.
Proof. unfold put_tokens. simpl. by destruct (c.2). Qed.

Lemma step_lookup m c tok :
  tok ∉ put_tokens [c] → step m c !! tok = m !! tok ∨ step m c !! tok = None.
Proof.
  rewrite put_tokens_cons. unfold step.
  destruct (c.2) as [token zip man ttl|token].
  - intros Hne%not_elem_of_cons. left. unfold put. apply lookup_insert_ne. naive_solver.
  - intros _. apply get_lookup.
Qed.

(** Without a [put] on the token, its entry stays as it is until it is
    removed, and an absent token stays absent. *)
Lemma run_lookup calls m tok :
  tok ∉ put_tokens calls → run calls m !! tok = m !! tok ∨ run calls m !! tok = None.
Proof.
  revert m. induction calls as [|c calls IH]; intros m Hne; [by left|].
  assert ((tok ∉ put_tokens [c]) ∧ (tok ∉ put_tokens calls)) as [Hc Hcalls].
  { rewrite put_tokens_cons in *. destruct (c.2); simpl.
    - apply not_elem_of_cons in Hne as [? ?]. split; [|done].
      rewrite not_elem_of_cons. split; [done|apply not_elem_of_nil].
    - split; [apply not_elem_of_nil|done]. }
  change (run (c :: calls) m) with (run calls (step m c)).
  destruct (IH (step m c) Hcalls) as [-> | ->]; [|by right].
  by apply step_lookup.
Qed.

(** Entries come from [put] only. *)
Lemma run_lookup_Some calls m tok e :
  m !! tok = None → run calls m !! tok = Some e → tok ∈ put_tokens calls.
Proof.
  intros Hm He. destruct (decide (tok ∈ put_tokens calls)) as [|Hne]; [done|].
  destruct (run_lookup calls m tok Hne) as [H|H]; congruence.
Qed.

Lemma put_tokens_app calls1 calls2 :
  put_tokens (calls1 ++ calls2) = put_tokens calls1 ++ put_tokens calls2.
Proof. apply omap_app. Qed.

End StoreFacts.

(** C3. For every store, token, archive, manifest and positive TTL:
    [get(token)] at the instant of [put(token, ...)], and at any instant up
    to the expiry, returns the entry that was stored, unchanged, and leaves
    the store as it is; at an instant after the expiry, [get(token)]
    returns [null] and removes the entry; and after that, whatever calls
    follow that do not [put] the token again, [get(token)] returns [null]. *)
Theorem get_after_put (m : gmap string Store.Entry) (token : string)
    (zipBuffer : list Byte.byte) (manifest : Manifest.t) (ttlMin now : Z) :
  0 < ttlMin →
  let e := {| Store.zipBuffer := zipBuffer; Store.manifest := manifest;
              Store.exp := now + ttlMin * 60 * 1000 |} in
  let m1 := Store.put token zipBuffer manifest ttlMin now m in
  Store.get token now m1 = (Some e, m1)
  ∧ (∀ now', now' ≤ Store.exp e → Store.get token now' m1 = (Some e, m1))
  ∧ (∀ now1, Store.exp e < now1 →
       Store.get token now1 m1 = (None, delete token m1)
       ∧ (Store.get token now1 m1).2 !! token = None
       ∧ ∀ calls now2,
           token ∉ Store.put_tokens calls →
           Store.get token now2 (Store.run calls (Store.get token now1 m1).2)
           = (None, Store.run calls (Store.get token now1 m1).2)).
Proof.
  intros Httl e m1.
  assert (m1 !! token = Some e) as Hm1 by apply lookup_insert_eq.
  split_and!.
  - apply get_fresh; [done|]. simpl. lia.
  - intros now' Hle. by apply get_fresh.
  - intros now1 Hlt. rewrite (get_stale token now1 m1 e) by done. simpl.
    split_and!; [done|apply lookup_delete_eq|].
    intros calls now2 Hcalls. apply get_absent.
    destruct (run_lookup calls (delete token m1) token Hcalls) as [-> | ->]; [|done].
    apply lookup_delete_eq.
Qed.

(** The witness of C3: a one-hour entry put at instant 1000. *)
Lemma get_after_put_witness :
  0 < 60
  ∧ Store.get "tok" 1000 (Store.put "tok" [] empty_manifest 60 1000 ∅)
    = (Some {| Store.zipBuffer := []; Store.manifest := empty_manifest;
               Store.exp := 1000 + 60 * 60 * 1000 |},
       Store.put "tok" [] empty_manifest 60 1000 ∅).
Proof.
  split; [lia|].
  refine (proj1 (get_after_put ∅ "tok" [] empty_manifest 60 1000 _)).
  lia.
Defined.

(** ** The evidence manifest *)

Section ManifestFacts.

Import Manifest.

Variable sha256_digest : list Byte.byte → list Byte.byte.
Variable json_bytes : list FileEntry → string → string → option (list Byte.byte).
Variable base64_decode : string → option (list Byte.byte).
Variable nacl_sign_detached : list Byte.byte → list Byte.byte → option (list Byte.byte).
Variable base64_encode : list Byte.byte → option string.

Abbreviation build :=
  (buildManifest sha256_digest json_bytes base64_decode nacl_sign_detached base64_encode).
Abbreviation sign :=
  (try_sign json_bytes base64_decode nacl_sign_detached base64_encode).
Abbreviation entry_of :=
  (λ nb : string * list Byte.byte,
     {| name := nb.1; bytes := length nb.2; sha256 := hex (sha256_digest nb.2) |}).

Lemma nonempty_spec s : nonempty s = true ↔ s ≠ "".
Proof.
  unfold nonempty. destruct (String.eqb_spec s ""); simpl; split; congruence.
Qed.

(** The fields other than [signing] do not depend on the keys or on the
    outcome of signing. *)
Lemma buildManifest_fields cfg now_iso namedFiles meta :
  created_utc (build cfg now_iso namedFiles meta) = now_iso
  ∧ hash_algo (build cfg now_iso namedFiles meta) = "SHA-256"
  ∧ ruleset_id (build cfg now_iso namedFiles meta) = meta_ruleset_id meta
  ∧ files (build cfg now_iso namedFiles meta) = map entry_of namedFiles.
Proof.
  assert (map (λ '(name, buf), {| name := name; bytes := length buf;
                                  sha256 := sha256Hex sha256_digest buf |}) namedFiles
          = map entry_of namedFiles) as Hfiles.
  { apply list_fmap_ext. by intros _ [n b] _. }
  unfold buildManifest. rewrite Hfiles.
  destruct (nonempty _ && nonempty _); [|done].
  by destruct (try_sign _ _ _ _ _ _ _ _).
Qed.

Lemma buildManifest_signing cfg now_iso namedFiles meta :
  signing (build cfg now_iso namedFiles meta) =
  if nonempty (SIGN_PRIVATE_KEY cfg) && nonempty (SIGN_PUBLIC_KEY cfg)
  then sign cfg (map entry_of namedFiles) now_iso (meta_ruleset_id meta)
  else None.
Proof.
  assert (map (λ '(name, buf), {| name := name; bytes := length buf;
                                  sha256 := sha256Hex sha256_digest buf |}) namedFiles
          = map entry_of namedFiles) as Hfiles.
  { apply list_fmap_ext. by intros _ [n b] _. }
  unfold buildManifest. rewrite Hfiles. simpl.
  destruct (nonempty _ && nonempty _); [|done].
  by destruct (try_sign _ _ _ _ _ _ _ _).
Qed.

Lemma hex_byte_length b : String.length (hex_byte b) = 2%nat.
Proof. reflexivity. Qed.

Lemma unhex_hex_byte b s : unhex (hex_byte b +:+ s) = bs ← unhex s; Some (b :: bs).
Proof. destruct b; reflexivity. Qed.

(** The digest string determines the digest bytes. *)
Lemma unhex_hex bs : unhex (hex bs) = Some bs.
Proof.
  induction bs as [|b bs IH]; [done|].
  simpl hex. by rewrite unhex_hex_byte, IH.
Qed.

Lemma hex_inj bs1 bs2 : hex bs1 = hex bs2 → bs1 = bs2.
Proof.
  intros H. apply (f_equal unhex) in H. rewrite !unhex_hex in H. congruence.
Qed.

(** The [try] block yields a value exactly when its four steps do. *)
Lemma try_sign_spec cfg fs created ruleset s :
  sign cfg fs created ruleset = Some s
  ↔ ∃ msg secret sig sig64,
      json_bytes fs created ruleset = Some msg
      ∧ base64_decode (SIGN_PRIVATE_KEY cfg) = Some secret
      ∧ nacl_sign_detached msg secret = Some sig
      ∧ base64_encode sig = Some sig64
      ∧ s = {| key_id := "ed25519:app"; signature := sig64 |}.
Proof.
  unfold try_sign. split.
  - destruct (json_bytes fs created ruleset) as [msg|]; [|discriminate]. simpl.
    destruct (base64_decode (SIGN_PRIVATE_KEY cfg)) as [secret|]; [|discriminate]. simpl.
    destruct (nacl_sign_detached msg secret) as [sig|] eqn:Hsig; [|discriminate]. simpl.
    destruct (base64_encode sig) as [sig64|] eqn:H64; [|discriminate]. simpl.
    intros [= <-]. by exists msg, secret, sig, sig64.
  - intros (msg & secret & sig & sig64 & -> & -> & Hsig & H64 & ->). simpl.
    rewrite Hsig. simpl. by rewrite H64.
Qed.

(** C4. The manifest that [buildManifest] returns has a [signing] field
    exactly when both signing keys are configured (non-empty) and the
    signing computation succeeds, that is, when the serialisation of
    the files, timestamp and ruleset id, the decoding of the private
    key, the detached signature and its base64 encoding all return; the
    field then holds the key id ["ed25519:app"] and that encoded
    signature.  If any of these steps raises, the manifest is returned
    all the same, without [signing]; when a key is not configured the
    manifest has no [signing] field; and the timestamp, hash algorithm,
    ruleset id and files are the same in all cases. *)
Theorem signing_present_iff (cfg : Cfg) (now_iso : string)
    (namedFiles : list (string * list Byte.byte)) (meta : RulesMeta) :
  (∀ s, signing (build cfg now_iso namedFiles meta) = Some s
        ↔ SIGN_PRIVATE_KEY cfg ≠ "" ∧ SIGN_PUBLIC_KEY cfg ≠ ""
          ∧ ∃ msg secret sig sig64,
              json_bytes (map entry_of namedFiles) now_iso (meta_ruleset_id meta)
              = Some msg
              ∧ base64_decode (SIGN_PRIVATE_KEY cfg) = Some secret
              ∧ nacl_sign_detached msg secret = Some sig
              ∧ base64_encode sig = Some sig64
              ∧ s = {| key_id := "ed25519:app"; signature := sig64 |})
  ∧ ((¬ ∃ msg secret sig sig64,
          json_bytes (map entry_of namedFiles) now_iso (meta_ruleset_id meta) = Some msg
          ∧ base64_decode (SIGN_PRIVATE_KEY cfg) = Some secret
          ∧ nacl_sign_detached msg secret = Some sig
          ∧ base64_encode sig = Some sig64) →
     build cfg now_iso namedFiles meta
     = {| created_utc := now_iso; hash_algo := "SHA-256";
          ruleset_id := meta_ruleset_id meta;
          files := map entry_of namedFiles; signing := None |})
  ∧ (SIGN_PRIVATE_KEY cfg = "" ∨ SIGN_PUBLIC_KEY cfg = "" →
     build cfg now_iso namedFiles meta
     = {| created_utc := now_iso; hash_algo := "SHA-256";
          ruleset_id := meta_ruleset_id meta;
          files := map entry_of namedFiles; signing := None |})
  ∧ created_utc (build cfg now_iso namedFiles meta) = now_iso
  ∧ hash_algo (build cfg now_iso namedFiles meta) = "SHA-256"
  ∧ ruleset_id (build cfg now_iso namedFiles meta) = meta_ruleset_id meta
  ∧ files (build cfg now_iso namedFiles meta) = map entry_of namedFiles.
Proof.
  destruct (buildManifest_fields cfg now_iso namedFiles meta)
    as (Hc & Ha & Hr & Hf).
  pose proof (buildManifest_signing cfg now_iso namedFiles meta) as Hs.
  assert (signing (build cfg now_iso namedFiles meta) = None →
          build cfg now_iso namedFiles meta
          = {| created_utc := now_iso; hash_algo := "SHA-256";
               ruleset_id := meta_ruleset_id meta;
               files := map entry_of namedFiles; signing := None |}) as Hunsigned.
  { destruct (build cfg now_iso namedFiles meta) as [c a r f sg]. simpl in *.
    intros ->. by subst c a r f. }
  split; [|split; [|split]]; [| | |done].
  - intros s. rewrite Hs.
    destruct (nonempty (SIGN_PRIVATE_KEY cfg)) eqn:Hpriv;
      destruct (nonempty (SIGN_PUBLIC_KEY cfg)) eqn:Hpub; simpl.
    + apply nonempty_spec in Hpriv, Hpub. rewrite try_sign_spec. tauto.
    + apply not_true_iff_false in Hpub. rewrite nonempty_spec in Hpub.
      split; [discriminate|tauto].
    + apply not_true_iff_false in Hpriv. rewrite nonempty_spec in Hpriv.
      split; [discriminate|tauto].
    + apply not_true_iff_false in Hpriv. rewrite nonempty_spec in Hpriv.
      split; [discriminate|tauto].
  - intros Hfail. apply Hunsigned. rewrite Hs.
    destruct (nonempty _ && nonempty _); [|done].
    destruct (sign cfg (map entry_of namedFiles) now_iso (meta_ruleset_id meta))
      as [s|] eqn:Hsign; [|done].
    exfalso. apply Hfail.
    apply try_sign_spec in Hsign as (msg & secret & sig & sig64 & ? & ? & ? & ? & _).
    by exists msg, secret, sig, sig64.
  - intros Hkey. apply Hunsigned. rewrite Hs.
    destruct Hkey as [-> | ->]; simpl; [done|].
    by rewrite andb_false_r.
Qed.

(** C6. For every list of named blobs (the entries of the map, in its
    iteration order), the manifest records the hash algorithm
    ["SHA-256"] and one file entry per blob, in the same order, holding
    the name, the byte length and the hexadecimal SHA-256 digest of the
    blob's bytes; computing the digest of a blob again gives the
    recorded string, and the recorded string reads back as the digest
    bytes. *)
Theorem manifest_files_digests (cfg : Cfg) (now_iso : string)
    (namedFiles : list (string * list Byte.byte)) (meta : RulesMeta) :
  hash_algo (build cfg now_iso namedFiles meta) = "SHA-256"
  ∧ length (files (build cfg now_iso namedFiles meta)) = length namedFiles
  ∧ map name (files (build cfg now_iso namedFiles meta)) = map fst namedFiles
  ∧ Forall2 (λ nb e,
               name e = nb.1
               ∧ bytes e = length nb.2
               ∧ sha256 e = sha256Hex sha256_digest nb.2
               ∧ unhex (sha256 e) = Some (sha256_digest nb.2))
            namedFiles (files (build cfg now_iso namedFiles meta)).
Proof.
  destruct (buildManifest_fields cfg now_iso namedFiles meta)
    as (_ & Ha & _ & Hf).
  rewrite Hf. split_and!.
  - done.
  - by rewrite length_map.
  - rewrite <- list_fmap_compose. by apply list_fmap_ext.
  - apply Forall2_fmap_r, Forall_Forall2_diag, Forall_forall.
    intros nb _. simpl. split_and!; try done. apply unhex_hex.
Qed.

End ManifestFacts.

(** ** Examples *)

(** The witness of C5: two deposits given in either order. *)
Lemma scoreAll_permutation_witness :
  [cash_deposit "c1" 3; cash_deposit "c1" 1] ≡ₚ [cash_deposit "c1" 1; cash_deposit "c1" 3]
  ∧ scoreAll [plain_client "c1"] [cash_deposit "c1" 3; cash_deposit "c1" 1]
             {| start := 0; end_ := 30 |}
    = scoreAll [plain_client "c1"] [cash_deposit "c1" 1; cash_deposit "c1" 3]
               {| start := 0; end_ := 30 |}.
Proof.
  split; [apply perm_swap|].
  apply scoreAll_permutation, perm_swap.
Defined.

(** Four deposits of 9700 within 7 days, in two input orders: the
    structuring reason fires once. *)
Example structuring_four_in_seven_days :
  scores (scoreAll [plain_client "c1"]
            [cash_deposit "c1" 8; cash_deposit "c1" 1; cash_deposit "c1" 5;
             cash_deposit "c1" 3]
            {| start := 0; end_ := 30 |})
  = [{| res_client_id := "c1"; score := 12; band := "Low";
        reasons := [tagged structuring_reason] |}]
  ∧ scores (scoreAll [plain_client "c1"]
              [cash_deposit "c1" 1; cash_deposit "c1" 3; cash_deposit "c1" 5;
               cash_deposit "c1" 8]
              {| start := 0; end_ := 30 |})
    = [{| res_client_id := "c1"; score := 12; band := "Low";
          reasons := [tagged structuring_reason] |}].
Proof. split; reflexivity. Qed.

(** Three deposits within 7 days, and four deposits of which the first and
    the last are 8 days apart: no reason. *)
Example structuring_negative :
  scores (scoreAll [plain_client "c1"]
            [cash_deposit "c1" 1; cash_deposit "c1" 3; cash_deposit "c1" 5]
            {| start := 0; end_ := 30 |})
  = [{| res_client_id := "c1"; score := 0; band := "Low"; reasons := [] |}]
  ∧ scores (scoreAll [plain_client "c1"]
              [cash_deposit "c1" 1; cash_deposit "c1" 3; cash_deposit "c1" 5;
               cash_deposit "c1" 9]
              {| start := 0; end_ := 30 |})
    = [{| res_client_id := "c1"; score := 0; band := "Low"; reasons := [] |}].
Proof. split; reflexivity. Qed.

(** The lookback boundary: deposits dated [lookback.start] count, a deposit
    of the day before does not. *)
Example lookback_boundary :
  scores (scoreAll [plain_client "c1"]
            [cash_deposit "c1" 10; cash_deposit "c1" 10; cash_deposit "c1" 11;
             cash_deposit "c1" 12]
            {| start := 10; end_ := 30 |})
  = [{| res_client_id := "c1"; score := 12; band := "Low";
        reasons := [tagged structuring_reason] |}]
  ∧ scores (scoreAll [plain_client "c1"]
              [cash_deposit "c1" 9; cash_deposit "c1" 10; cash_deposit "c1" 11;
               cash_deposit "c1" 12]
              {| start := 10; end_ := 30 |})
    = [{| res_client_id := "c1"; score := 0; band := "Low"; reasons := [] |}].
Proof. split; reflexivity. Qed.

(** A PEP alone scores 20, band Medium; PEP and sanctions score 45, band
    High. *)
Example pep_and_sanctions :
  scores (scoreAll
            [{| client_id := "p"; pep_flag := Js.Bool true; sanctions_flag := Js.Undefined;
                kyc_last_reviewed_at := KycMissing; delivery_channel := Js.Undefined;
                services := Js.Undefined; residency_country := Js.Undefined |};
             {| client_id := "q"; pep_flag := Js.Str "TRUE"; sanctions_flag := Js.Str "true";
                kyc_last_reviewed_at := KycUnparsable; delivery_channel := Js.Undefined;
                services := Js.Undefined; residency_country := Js.Undefined |}]
            [] {| start := 0; end_ := 30 |})
  = [{| res_client_id := "p"; score := 20; band := "Medium";
        reasons := [tagged (reason "profile" "PEP flag" 20)] |};
     {| res_client_id := "q"; score := 45; band := "High";
        reasons := [tagged (reason "profile" "PEP flag" 20);
                    tagged (reason "profile" "Sanctions flag" 25)] |}].
Proof. reflexivity. Qed.

(** Two clients with one [client_id]: the second reads the array that the
    first has sorted in place, and gets the same behavioural reasons. *)
Example shared_client_id :
  map reasons
    (scores (scoreAll [plain_client "c1"; plain_client "c1"]
               [cash_deposit "c1" 8; cash_deposit "c1" 1; cash_deposit "c1" 5;
                cash_deposit "c1" 3]
               {| start := 0; end_ := 30 |}))
  = [[tagged structuring_reason]; [tagged structuring_reason]].
Proof. reflexivity. Qed.

(** The hexadecimal form of a digest. *)
Example hex_bytes : Manifest.hex [Byte.x00; Byte.x0f; Byte.xa5; Byte.xff] = "000fa5ff".
Proof. reflexivity. Qed.

(** * Further properties of [rules.js] *)

(** ** Each rule and its reason *)

Ltac reason_emitted :=
  rewrite elem_of_score_of, elem_of_profile_signals, elem_of_behaviour_signals;
  simpl; rewrite elem_of_nil;
  unfold structuring_reason, pep_reason, sanctions_reason, kyc_reason, online_reason,
    remittance_reason, property_reason, residency_reason, corridor_reason,
    large_reason, reason;
  split;
  [ let H := fresh "H" in
    intros H; repeat destruct H as [H|H]; try done; destruct H as [H ?]; done
  | tauto ].

Section Rules.

Implicit Types (t : Transaction) (l : list Transaction) (c : Client).

Lemma kyc_emitted lb c txs :
  tagged kyc_reason ∈ reasons (score_of lb c txs)
  ↔ ∃ kd, kyc_last_reviewed_at c = KycOn kd ∧ (365 <? end_ lb - kd) = true.
Proof. reason_emitted. Qed.

Lemma online_emitted lb c txs :
  tagged online_reason ∈ reasons (score_of lb c txs)
  ↔ Js.includes (Js.toLowerCase (Js.String (Js.or (delivery_channel c) (Js.Str ""))))
                "online" = true.
Proof. reason_emitted. Qed.

Lemma remittance_emitted lb c txs :
  tagged remittance_reason ∈ reasons (score_of lb c txs)
  ↔ Js.includes (Js.toLowerCase (Js.String (Js.or (services c) (Js.Str ""))))
                "remittance" = true.
Proof. reason_emitted. Qed.

Lemma property_emitted lb c txs :
  tagged property_reason ∈ reasons (score_of lb c txs)
  ↔ Js.includes (Js.toLowerCase (Js.String (Js.or (services c) (Js.Str ""))))
                "property" = true.
Proof. reason_emitted. Qed.

Lemma residency_emitted lb c txs :
  tagged residency_reason ∈ reasons (score_of lb c txs)
  ↔ HR_has (Js.toUpperCase (Js.String (Js.or (residency_country c) (Js.Str "")))) = true.
Proof. reason_emitted. Qed.

Lemma corridor_emitted lb c txs :
  tagged corridor_reason ∈ reasons (score_of lb c txs)
  ↔ (2 <=? length (filter (λ t, is_intlHR t) (sort_by_date txs)))%nat
    && existsb (λ t, Qle_bool 20000 (amount t))
               (filter (λ t, is_intlHR t) (sort_by_date txs)) = true.
Proof. reason_emitted. Qed.

Lemma large_emitted lb c txs :
  tagged large_reason ∈ reasons (score_of lb c txs)
  ↔ (1 <=? length (filter (λ t, is_largeAU t) (sort_by_date txs)))%nat = true.
Proof. reason_emitted. Qed.

Lemma prefix_spec p s : String.prefix p s = true ↔ ∃ b, s = p +:+ b.
Proof.
  revert s. induction p as [|a p IH]; intros s; simpl.
  - destruct s; split; eauto.
  - destruct s as [|a' s]; simpl.
    + split; [done|]. intros [b Hb]. discriminate.
    + destruct (Ascii.ascii_dec a a') as [->|Hne].
      * rewrite IH. split; intros [b Hb]; exists b; [by rewrite Hb|by injection Hb].
      * split; [done|]. intros [b Hb]. injection Hb as Ha _. congruence.
Qed.

Lemma includes_cons ch s p :
  Js.includes (String.String ch s) p = String.prefix p (String.String ch s) || Js.includes s p.
Proof. reflexivity. Qed.

(** [includes] is the search for a substring. *)
Lemma includes_spec s p : Js.includes s p = true ↔ ∃ a b, s = a +:+ p +:+ b.
Proof.
  induction s as [|ch s IH].
  - change (Js.includes "" p) with (String.prefix p "" || false).
    rewrite orb_false_r, prefix_spec. split.
    + intros [b Hb]. by exists "", b.
    + intros ([|??] & b & Hb); [|discriminate]. by exists b.
  - rewrite includes_cons, orb_true_iff, prefix_spec, IH. split.
    + intros [[b Hb]|(a & b & Hb)].
      * by exists "", b.
      * exists (String.String ch a), b. simpl. by rewrite Hb.
    + intros ([|ch' a] & b & Hb).
      * left. by exists b.
      * right. exists a, b. simpl in Hb. by injection Hb.
Qed.

Lemma is_intlHR_spec t : is_intlHR t = true ↔ corridor_tx t.
Proof.
  unfold is_intlHR, corridor_tx, HR_has.
  rewrite !andb_true_iff, !String.eqb_eq, bool_decide_eq_true.
  destruct (counterparty_country t) as [cc|]; simpl; [tauto|].
  split; [|tauto]. intros [[_ Hin] _]. unfold HR_COUNTRIES in Hin. set_solver.
Qed.

Lemma filter_intlHR l : filter (λ t, is_intlHR t) l = filter corridor_tx l.
Proof.
  apply list_filter_iff. intros t. by rewrite Is_true_true, is_intlHR_spec.
Qed.

Lemma is_largeAU_spec t : is_largeAU t = true ↔ large_domestic_tx t.
Proof.
  unfold is_largeAU, large_domestic_tx, domestic.
  rewrite !andb_true_iff, String.eqb_eq, Qle_bool_iff.
  destruct (counterparty_country t) as [cc|]; simpl.
  - rewrite orb_true_iff, !String.eqb_eq, !elem_of_cons, elem_of_nil. naive_solver.
  - rewrite !elem_of_cons. naive_solver.
Qed.

End Rules.

Section RuleConditions.

Implicit Types (t : Transaction) (l : list Transaction).

Lemma corridor_condition l :
  (2 <=? length (filter (λ t, is_intlHR t) (sort_by_date l)))%nat
  && existsb (λ t, Qle_bool 20000 (amount t)) (filter (λ t, is_intlHR t) (sort_by_date l))
  = true
  ↔ (2 ≤ length (filter corridor_tx l))%nat
    ∧ ∃ t, t ∈ filter corridor_tx l ∧ (20000 <= amount t)%Q.
Proof.
  rewrite filter_intlHR.
  assert (filter corridor_tx (sort_by_date l) ≡ₚ filter corridor_tx l) as Hp
    by (by rewrite sort_by_date_perm).
  rewrite andb_true_iff, Nat.leb_le, existsb_exists, (Permutation_length Hp).
  split; intros [Hlen (t & Ht & Hamt)]; (split; [done|]); exists t.
  - apply list_elem_of_In in Ht. rewrite Hp in Ht. by apply Qle_bool_iff in Hamt.
  - rewrite <- Hp in Ht. apply list_elem_of_In in Ht. by apply Qle_bool_iff in Hamt.
Qed.

Lemma large_condition l :
  (1 <=? length (filter (λ t, is_largeAU t) (sort_by_date l)))%nat = true
  ↔ ∃ t, t ∈ l ∧ large_domestic_tx t.
Proof.
  rewrite Nat.leb_le. split.
  - intros Hlen.
    destruct (filter (λ t, is_largeAU t) (sort_by_date l)) as [|t k] eqn:Hf;
      [simpl in Hlen; lia|].
    assert (t ∈ filter (λ t, is_largeAU t) (sort_by_date l)) as Ht
      by (rewrite Hf; apply list_elem_of_here).
    apply list_elem_of_filter in Ht as [Hl Ht]. rewrite sort_by_date_perm in Ht.
    exists t. split; [done|]. by apply is_largeAU_spec, Is_true_true.
  - intros (t & Ht & Hl).
    assert (t ∈ filter (λ t, is_largeAU t) (sort_by_date l)) as Hin.
    { apply list_elem_of_filter. rewrite sort_by_date_perm. split; [|done].
      by apply Is_true_true, is_largeAU_spec. }
    destruct (filter (λ t, is_largeAU t) (sort_by_date l)); [by apply elem_of_nil in Hin|].
    simpl. lia.
Qed.

End RuleConditions.

(** ** Clients without signals *)

(** A client to which, in the words of the rule table, no profile rule
    applies passes every test of the profile block. *)
Lemma without_profile_signals_none lb c :
  without_profile_signals lb c → no_profile_signals lb c.
Proof.
  intros (Hpep & Hsanc & Hkyc & Hchan & Hrem & Hprop & _ & Hrc).
  unfold no_profile_signals. split_and!.
  - apply not_true_iff_false. by rewrite flag_set_spec.
  - apply not_true_iff_false. by rewrite flag_set_spec.
  - destruct (kyc_last_reviewed_at c) as [| |kd]; try done. by apply Hkyc.
  - apply not_true_iff_false. by rewrite includes_spec.
  - apply not_true_iff_false. by rewrite includes_spec.
  - apply not_true_iff_false. by rewrite includes_spec.
  - unfold HR_has, HR_COUNTRIES. by apply bool_decide_eq_false.
Qed.

(** C8. [scoreAll] returns on every input, with one result per client, in
    particular on an empty client list (no results, and the ruleset
    metadata as always) and on an empty transaction list (each client
    scored on its profile alone).  A client with no transaction of its
    own inside the lookback window gets no behavioural reason, and if in
    addition none of the profile rules applies to it (its flags do not
    read true, its KYC review, if dated, is at most 365 days before the
    end of the window, its channel and services name none of the three
    keywords and its residency, an ASCII text, is no high-risk code), its
    result is score 0, band ['Low'] and no reasons. *)
Theorem scoreAll_empty_inputs (clients : list Client) (txs : list Transaction)
    (lb : Lookback) :
  scoreAll [] txs lb
  = {| scores := [];
       rulesMeta :=
         {| ruleset_id := "dnfbp-2025.11"; lookback := lb;
            corridors := ["RU"; "CN"; "HK"; "AE"; "IN"; "IR"];
            banding := {| High := ">=30"; Medium := ">=15"; Low := "<15" |} |} |}
  ∧ scores (scoreAll clients [] lb)
    = map (λ c, result_of c (profile_signals lb c (0, []))) clients
  ∧ Forall2 (λ c r, res_client_id r = client_id c
                    ∧ Forall (λ tr, family (spread tr) = "profile") (reasons r))
            clients (scores (scoreAll clients [] lb))
  ∧ length (scores (scoreAll clients txs lb)) = length clients
  ∧ Forall2 (λ c r,
               res_client_id r = client_id c
               ∧ (filter (selected lb c) txs = [] →
                  Forall (λ tr, family (spread tr) = "profile") (reasons r)
                  ∧ (without_profile_signals lb c →
                     r = {| res_client_id := client_id c; score := 0;
                            band := "Low"; reasons := [] |})))
            clients (scores (scoreAll clients txs lb)).
Proof.
  assert (∀ c, Forall (λ tr, family (spread tr) = "profile")
                 (reasons (result_of c (profile_signals lb c (0, []))))) as Hfam.
  { intros c. apply Forall_forall. intros tr Htr. simpl in Htr.
    apply list_elem_of_fmap in Htr as (r & -> & Hr). simpl.
    by eapply profile_signals_family. }
  split; [|split; [|split; [|split]]].
  - reflexivity.
  - by rewrite scoreAll_scores.
  - apply scoreAll_Forall2. intros c. split; [done|].
    unfold score_of. rewrite filter_nil, behaviour_signals_nil. apply Hfam.
  - by rewrite scoreAll_scores, length_map.
  - apply scoreAll_Forall2. intros c. split; [done|]. intros ->.
    unfold score_of. rewrite behaviour_signals_nil. split; [apply Hfam|].
    intros Hnone%without_profile_signals_none. by rewrite profile_signals_none.
Qed.

(** X1. The stale-KYC reason (+5) is emitted for a client exactly when its
    review date parses and lies more than 365 calendar days before
    [lookback.end]; a missing or unparsable date, and a date exactly 365
    days before, emit nothing. *)
Theorem kyc_rule (clients : list Client) (txs : list Transaction) (lb : Lookback) :
  Forall2 (λ c r,
             (tagged kyc_reason ∈ reasons r
              ↔ ∃ kd, kyc_last_reviewed_at c = KycOn kd ∧ 365 < end_ lb - kd)
             ∧ (kyc_last_reviewed_at c ∈ [KycMissing; KycUnparsable;
                                          KycOn (end_ lb - 365)] →
                tagged kyc_reason ∉ reasons r))
          clients (scores (scoreAll clients txs lb)).
Proof.
  apply scoreAll_Forall2. intros c. rewrite kyc_emitted.
  assert ((∃ kd, kyc_last_reviewed_at c = KycOn kd ∧ (365 <? end_ lb - kd) = true)
          ↔ ∃ kd, kyc_last_reviewed_at c = KycOn kd ∧ 365 < end_ lb - kd) as ->.
  { split; intros (kd & Hk & Hd); exists kd; (split; [done|]); by apply Z.ltb_lt. }
  split; [done|].
  intros Hin (kd & Hk & Hd). rewrite Hk in Hin.
  rewrite !elem_of_cons, elem_of_nil in Hin.
  destruct Hin as [?|[?|[Heq|[]]]]; try done. injection Heq as ->. lia.
Qed.

(** X2. The text rules of the profile.  The online-channel reason (+3) is
    emitted exactly when the lower-cased delivery channel contains
    ["online"] as a substring, the remittance (+6) and property (+4)
    reasons exactly when the lower-cased services text contains
    ["remittance"], respectively ["property"], and, for a residency
    country written in ASCII, the residency reason (+8) exactly when the
    upper-cased country is one of the six high-risk codes. *)
Theorem text_rules (clients : list Client) (txs : list Transaction) (lb : Lookback) :
  Forall2 (λ c r,
             (tagged online_reason ∈ reasons r
              ↔ ∃ a b, Js.toLowerCase (Js.String (Js.or (delivery_channel c) (Js.Str "")))
                       = a +:+ "online" +:+ b)
             ∧ (tagged remittance_reason ∈ reasons r
                ↔ ∃ a b, Js.toLowerCase (Js.String (Js.or (services c) (Js.Str "")))
                         = a +:+ "remittance" +:+ b)
             ∧ (tagged property_reason ∈ reasons r
                ↔ ∃ a b, Js.toLowerCase (Js.String (Js.or (services c) (Js.Str "")))
                         = a +:+ "property" +:+ b)
             ∧ (ascii_text (Js.String (Js.or (residency_country c) (Js.Str ""))) →
                (tagged residency_reason ∈ reasons r
                 ↔ Js.toUpperCase (Js.String (Js.or (residency_country c) (Js.Str "")))
                   ∈ ["RU"; "CN"; "HK"; "AE"; "IN"; "IR"])))
          clients (scores (scoreAll clients txs lb)).
Proof.
  apply scoreAll_Forall2. intros c.
  rewrite online_emitted, remittance_emitted, property_emitted, residency_emitted.
  rewrite !includes_spec. unfold HR_has. rewrite bool_decide_eq_true.
  split_and!; try done.
Qed.

(** X3. The corridor reason (+10) is emitted for a client exactly when, among
    its transactions dated on or after [lookback.start], at least two are
    outbound AUD transfers to a high-risk country and at least one of
    those is of 20000 or more.  The country is compared as written: the
    code of a counterparty is not upper-cased. *)
Theorem corridor_rule (clients : list Client) (txs : list Transaction) (lb : Lookback) :
  Forall2 (λ c r,
             tagged corridor_reason ∈ reasons r
             ↔ (2 ≤ length (filter corridor_tx (filter (selected lb c) txs)))%nat
               ∧ ∃ t, t ∈ filter corridor_tx (filter (selected lb c) txs)
                      ∧ (20000 <= amount t)%Q)
          clients (scores (scoreAll clients txs lb)).
Proof.
  apply scoreAll_Forall2. intros c. by rewrite corridor_emitted, corridor_condition.
Qed.

(** X4. The large-transfer reason (+8) is emitted for a client exactly when
    one of its transactions dated on or after [lookback.start] is in AUD,
    of 100000 or more, and has no counterparty country, an empty one or
    ['AU']; its direction does not matter. *)
Theorem large_domestic_rule (clients : list Client) (txs : list Transaction)
    (lb : Lookback) :
  Forall2 (λ c r,
             tagged large_reason ∈ reasons r
             ↔ ∃ t, t ∈ txs ∧ selected lb c t ∧ large_domestic_tx t)
          clients (scores (scoreAll clients txs lb)).
Proof.
  apply scoreAll_Forall2. intros c. rewrite large_emitted, large_condition.
  split.
  - intros (t & [Hs Ht]%list_elem_of_filter & Hl). by exists t.
  - intros (t & Ht & Hs & Hl). exists t. split; [|done]. by apply list_elem_of_filter.
Qed.

(** ** The shape of a result *)

Section Shape.

Lemma hit_sublist cond add r st (pre : list Reason) :
  st.2 `sublist_of` pre → (hit cond add r st).2 `sublist_of` pre ++ [r].
Proof.
  intros Hst. unfold hit. destruct cond; simpl.
  - by apply sublist_app.
  - by apply sublist_inserts_r.
Qed.

Lemma reasons_sublist lb c txs :
  reasons (score_of lb c txs) `sublist_of` map tagged catalogue.
Proof.
  change (reasons (score_of lb c txs)) with
    (tagged <$> (behaviour_signals (sort_by_date txs) (profile_signals lb c (0, []))).2).
  apply (fmap_sublist tagged).
  unfold behaviour_signals, profile_signals.
  change catalogue with
    ([] ++ [pep_reason] ++ [sanctions_reason] ++ [kyc_reason] ++ [online_reason]
        ++ [remittance_reason] ++ [property_reason] ++ [residency_reason]
        ++ [structuring_reason] ++ [corridor_reason] ++ [large_reason]).
  rewrite !app_assoc.
  repeat apply hit_sublist.
  destruct (kyc_last_reviewed_at c);
    [apply sublist_inserts_r|apply sublist_inserts_r|apply hit_sublist];
    repeat apply hit_sublist; done.
Qed.

Lemma sum_points_sublist (l1 l2 : list TaggedReason) :
  l1 `sublist_of` l2 → Forall (λ r, 0 < points (spread r)) l2 →
  0 ≤ sum_points l1 ≤ sum_points l2.
Proof.
  unfold sum_points. induction 1 as [|x l1 l2 Hl IH|x l1 l2 Hl IH]; simpl.
  - done.
  - intros [Hx Hl2]%Forall_cons_1. specialize (IH Hl2). lia.
  - intros [Hx Hl2]%Forall_cons_1. specialize (IH Hl2). lia.
Qed.

Lemma catalogue_points : Forall (λ r, 0 < points (spread r) ≤ 25) (map tagged catalogue).
Proof. repeat constructor; simpl; lia. Qed.

Lemma catalogue_positive : Forall (λ r, 0 < points (spread r)) (map tagged catalogue).
Proof. eapply Forall_impl; [apply catalogue_points|]. simpl. intros; lia. Qed.

Lemma score_of_bounds lb c txs : 0 ≤ score (score_of lb c txs) ≤ 101.
Proof.
  rewrite score_of_sum.
  pose proof (sum_points_sublist _ _ (reasons_sublist lb c txs) catalogue_positive) as H.
  by vm_compute (sum_points (map tagged catalogue)) in H.
Qed.

End Shape.

(** X5. The reasons of every result follow the rule catalogue: they are a
    selection of its ten reasons in catalogue order (profile reasons
    before behavioural ones), so no reason occurs twice and a result has
    at most ten reasons. *)
Theorem reasons_follow_catalogue (clients : list Client) (txs : list Transaction)
    (lb : Lookback) :
  Forall (λ r,
            reasons r `sublist_of` map tagged catalogue
            ∧ NoDup (reasons r)
            ∧ (length (reasons r) ≤ 10)%nat)
         (scores (scoreAll clients txs lb)).
Proof.
  rewrite scoreAll_scores. apply Forall_fmap, Forall_forall. intros c _.
  unfold compose.
  pose proof (reasons_sublist lb c (filter (selected lb c) txs)) as Hsub.
  split_and!; [done| |].
  - eapply sublist_NoDup; [|exact Hsub].
    apply (NoDup_fmap_1 (λ tr, text (spread tr))).
    apply (bool_decide_unpack _). by vm_compute.
  - apply sublist_length in Hsub. by rewrite length_map in Hsub.
Qed.

(** X6. Every score lies between 0 and 101 (the sum of all ten rules); a
    score is 0 exactly when the result has no reason; and no single rule
    reaches the band ['High']: a result in that band has at least two
    reasons. *)
Theorem score_bounds (clients : list Client) (txs : list Transaction) (lb : Lookback) :
  Forall (λ r,
            0 ≤ score r ≤ 101
            ∧ (score r = 0 ↔ reasons r = [])
            ∧ (band r = "High" → (2 ≤ length (reasons r))%nat))
         (scores (scoreAll clients txs lb)).
Proof.
  rewrite scoreAll_scores. apply Forall_fmap, Forall_forall. intros c _.
  unfold compose. set (l := filter (selected lb c) txs).
  pose proof (reasons_sublist lb c l) as Hsub.
  pose proof (score_of_sum lb c l) as Hsum.
  assert (∀ x, x ∈ reasons (score_of lb c l) → 0 < points (spread x) ≤ 25) as Hpts.
  { intros x Hx.
    apply (proj1 (Forall_forall _ _) catalogue_points x).
    by eapply elem_of_sublist. }
  split; [|split].
  - apply score_of_bounds.
  - rewrite Hsum. destruct (reasons (score_of lb c l)) as [|x k] eqn:Hr; [done|].
    split; [|done]. intros H0. exfalso.
    assert (0 ≤ sum_points k) as Hk.
    { eapply (sum_points_sublist k (map tagged catalogue)); [|apply catalogue_positive].
      etrans; [|exact Hsub]. by apply sublist_cons. }
    specialize (Hpts x (list_elem_of_here _ _)). unfold sum_points in *. simpl in H0. lia.
  - change (band (score_of lb c l)) with (toBand (score (score_of lb c l))).
    rewrite toBand_High, Hsum.
    destruct (reasons (score_of lb c l)) as [|x [|y k]]; simpl.
    + unfold sum_points. simpl. lia.
    + specialize (Hpts x (list_elem_of_here _ _)). unfold sum_points. simpl. lia.
    + lia.
Qed.

(** ** More transactions, more clients *)

Section Monotone.

Implicit Types (t : Transaction) (l : list Transaction).

Lemma filter_submseteq (P : Transaction → Prop) `{!∀ t, Decision (P t)} l1 l2 :
  l1 ⊆+ l2 → filter P l1 ⊆+ filter P l2.
Proof.
  intros [k Hk]%submseteq_Permutation. rewrite Hk, filter_app.
  by apply submseteq_inserts_r.
Qed.

Lemma structured_mono l1 l2 :
  l1 ⊆+ l2 →
  structured_loop (filter (λ t, is_cashIn t) (sort_by_date l1)) = true →
  structured_loop (filter (λ t, is_cashIn t) (sort_by_date l2)) = true.
Proof.
  intros Hl. rewrite !structured_loop_spec.
  intros (w & Hw & Hn & H7). exists w. split_and!; try done.
  etrans; [exact Hw|]. by apply filter_submseteq.
Qed.

Lemma corridor_mono l1 l2 :
  l1 ⊆+ l2 →
  (2 <=? length (filter (λ t, is_intlHR t) (sort_by_date l1)))%nat
  && existsb (λ t, Qle_bool 20000 (amount t)) (filter (λ t, is_intlHR t) (sort_by_date l1))
  = true →
  (2 <=? length (filter (λ t, is_intlHR t) (sort_by_date l2)))%nat
  && existsb (λ t, Qle_bool 20000 (amount t)) (filter (λ t, is_intlHR t) (sort_by_date l2))
  = true.
Proof.
  intros Hl. rewrite !corridor_condition.
  pose proof (filter_submseteq corridor_tx l1 l2 Hl) as Hf.
  intros [Hlen (t & Ht & Hamt)]. split.
  - apply submseteq_length in Hf. lia.
  - exists t. split; [|done]. by eapply elem_of_submseteq.
Qed.

Lemma large_mono l1 l2 :
  l1 ⊆+ l2 →
  (1 <=? length (filter (λ t, is_largeAU t) (sort_by_date l1)))%nat = true →
  (1 <=? length (filter (λ t, is_largeAU t) (sort_by_date l2)))%nat = true.
Proof.
  intros Hl. rewrite !large_condition.
  intros (t & Ht & Hlarge). exists t. split; [|done]. by eapply elem_of_submseteq.
Qed.

Lemma behaviour_score txlist st :
  (behaviour_signals txlist st).1 =
  st.1
  + (if structured_loop (filter (λ t, is_cashIn t) txlist) then 12 else 0)
  + (if (2 <=? length (filter (λ t, is_intlHR t) txlist))%nat
        && existsb (λ t, Qle_bool 20000 (amount t)) (filter (λ t, is_intlHR t) txlist)
     then 10 else 0)
  + (if (1 <=? length (filter (λ t, is_largeAU t) txlist))%nat then 8 else 0).
Proof.
  unfold behaviour_signals, hit.
  repeat case_match; simpl; lia.
Qed.

Lemma score_of_mono lb c l1 l2 :
  l1 ⊆+ l2 → score (score_of lb c l1) ≤ score (score_of lb c l2).
Proof.
  intros Hl. unfold score_of, result_of. simpl. rewrite !behaviour_score.
  pose proof (structured_mono l1 l2 Hl) as Hs.
  pose proof (corridor_mono l1 l2 Hl) as Hc.
  pose proof (large_mono l1 l2 Hl) as Ha.
  repeat case_match; try lia; naive_solver.
Qed.

Lemma reasons_mono lb c l1 l2 r :
  l1 ⊆+ l2 → r ∈ reasons (score_of lb c l1) → r ∈ reasons (score_of lb c l2).
Proof.
  intros Hl Hr.
  assert (∃ r0, r = tagged r0) as [r0 ->].
  { unfold score_of, result_of in Hr. simpl in Hr.
    apply list_elem_of_fmap in Hr as (r0 & -> & _). by exists r0. }
  revert Hr. rewrite !elem_of_score_of, !elem_of_behaviour_signals.
  pose proof (structured_mono l1 l2 Hl) as Hs.
  pose proof (corridor_mono l1 l2 Hl) as Hc.
  pose proof (large_mono l1 l2 Hl) as Ha.
  naive_solver.
Qed.

Lemma band_rank_mono s1 s2 : s1 ≤ s2 → band_rank (toBand s1) ≤ band_rank (toBand s2).
Proof.
  intros Hs. unfold toBand.
  destruct (Z.leb_spec 30 s1), (Z.leb_spec 15 s1), (Z.leb_spec 30 s2), (Z.leb_spec 15 s2);
    try lia; by vm_compute.
Qed.

End Monotone.

(** X7. Adding transactions never lowers a risk result: if the transaction
    list grows (as a multiset), every client keeps all its reasons and
    its score and band do not decrease. *)
Theorem scoreAll_monotone (clients : list Client) (txs txs' : list Transaction)
    (lb : Lookback) :
  txs ⊆+ txs' →
  Forall2 (λ r r',
             res_client_id r = res_client_id r'
             ∧ (∀ x, x ∈ reasons r → x ∈ reasons r')
             ∧ score r ≤ score r'
             ∧ band_rank (band r) ≤ band_rank (band r'))
          (scores (scoreAll clients txs lb)) (scores (scoreAll clients txs' lb)).
Proof.
  intros Hsub. rewrite !scoreAll_scores.
  apply Forall2_fmap, Forall_Forall2_diag, Forall_forall. intros c _.
  assert (filter (selected lb c) txs ⊆+ filter (selected lb c) txs') as Hf
    by (by apply filter_submseteq).
  split_and!.
  - done.
  - intros x. by apply reasons_mono.
  - by apply score_of_mono.
  - apply band_rank_mono. by apply score_of_mono.
Qed.

(** The witness of X7: a fourth deposit completes a structuring window. *)
Lemma scoreAll_monotone_witness :
  [cash_deposit "c1" 1; cash_deposit "c1" 3; cash_deposit "c1" 5]
  ⊆+ [cash_deposit "c1" 7; cash_deposit "c1" 1; cash_deposit "c1" 3; cash_deposit "c1" 5]
  ∧ Forall2 (λ r r',
               res_client_id r = res_client_id r'
               ∧ (∀ x, x ∈ reasons r → x ∈ reasons r')
               ∧ score r ≤ score r'
               ∧ band_rank (band r) ≤ band_rank (band r'))
            (scores (scoreAll [plain_client "c1"]
                       [cash_deposit "c1" 1; cash_deposit "c1" 3; cash_deposit "c1" 5]
                       {| start := 0; end_ := 30 |}))
            (scores (scoreAll [plain_client "c1"]
                       [cash_deposit "c1" 7; cash_deposit "c1" 1; cash_deposit "c1" 3;
                        cash_deposit "c1" 5]
                       {| start := 0; end_ := 30 |})).
Proof.
  assert ([cash_deposit "c1" 1; cash_deposit "c1" 3; cash_deposit "c1" 5]
          ⊆+ [cash_deposit "c1" 7; cash_deposit "c1" 1; cash_deposit "c1" 3;
              cash_deposit "c1" 5]) as Hsub by (by apply submseteq_cons).
  split; [exact Hsub|].
  exact (scoreAll_monotone _ _ _ _ Hsub).
Defined.

(** X8. [scoreAll] treats the clients one by one: the results for a
    concatenation of client lists are the results of the parts, one after
    the other.  The arrays that one client's iteration sorts in place do
    not change what a later client gets, even with the same [client_id]. *)
Theorem scoreAll_clients_app (clients1 clients2 : list Client) (txs : list Transaction)
    (lb : Lookback) :
  scores (scoreAll (clients1 ++ clients2) txs lb)
  = scores (scoreAll clients1 txs lb) ++ scores (scoreAll clients2 txs lb).
Proof.
  rewrite !scoreAll_scores. apply map_app.
Qed.

(** * Further properties of [verify-store.js] *)

Section StoreMore.

Import Store.

Implicit Types (m : gmap string Entry) (calls : list (Z * call)).

Lemma run_snoc calls c m : run (calls ++ [c]) m = step (run calls m) c.
Proof. unfold run. by rewrite foldl_app. Qed.

Lemma get_lookup_ne token now m tok :
  token ≠ tok → (get token now m).2 !! tok = m !! tok.
Proof.
  intros Hne. unfold get. destruct (m !! token) as [v|]; [|done].
  case_match; [|done]. simpl. by apply lookup_delete_ne.
Qed.

Lemma step_lookup_ne m c tok : call_token c ≠ tok → step m c !! tok = m !! tok.
Proof.
  unfold call_token, step. destruct (c.2) as [token z man ttl|token]; intros Hne.
  - unfold put. by apply lookup_insert_ne.
  - by apply get_lookup_ne.
Qed.

Lemma get_Some token now m e :
  (get token now m).1 = Some e ↔ m !! token = Some e ∧ now ≤ exp e.
Proof.
  unfold get. destruct (m !! token) as [v|]; [|naive_solver].
  destruct (Z.ltb_spec (exp v) now); simpl; [|naive_solver lia].
  split; [done|]. intros [[= ->] ?]. lia.
Qed.

Lemma get_None_lookup token now m :
  (get token now m).1 = None → (get token now m).2 !! token = None.
Proof.
  unfold get. destruct (m !! token) as [v|] eqn:Hv; [|done].
  case_match; [|done]. intros _. simpl. apply lookup_delete_eq.
Qed.

Lemma step_size m c :
  (size (step m c) ≤ size m + length (put_tokens [c]))%nat.
Proof.
  rewrite put_tokens_cons. unfold step.
  destruct (c.2) as [token z man ttl|token]; simpl.
  - unfold put. rewrite map_size_insert. case_match; unfold id; lia.
  - unfold get. destruct (m !! token) as [v|] eqn:Hv; [|simpl; lia].
    case_match; simpl; [|lia]. rewrite map_size_delete, Hv. lia.
Qed.

(** With no [put] on the token, its entry stays as it is up to the first
    [get] on the token at an instant after the expiry, and is absent from
    then on. *)
Lemma run_evicted calls m tok e :
  tok ∉ put_tokens calls → m !! tok = Some e →
  run calls m !! tok = if evicted tok (exp e) calls then None else Some e.
Proof.
  revert m. induction calls as [|c calls IH]; intros m Hne Hm; [done|].
  change (run (c :: calls) m) with (run calls (step m c)).
  rewrite put_tokens_cons in Hne. unfold evicted. simpl. fold (evicted tok (exp e) calls).
  unfold step. destruct (c.2) as [token z man ttl|token].
  - apply not_elem_of_cons in Hne as [Hne Hcalls]. simpl.
    apply IH; [done|]. unfold put. by rewrite lookup_insert_ne.
  - destruct (decide (token = tok)) as [->|Hneq].
    + rewrite bool_decide_eq_true_2 by done. simpl.
      destruct (Z.ltb_spec (exp e) c.1) as [Hlt|Hle]; simpl.
      * rewrite (get_stale tok c.1 m e) by done. simpl.
        destruct (run_lookup calls (delete tok m) tok Hne) as [-> | ->]; [|done].
        apply lookup_delete_eq.
      * rewrite (get_fresh tok c.1 m e) by done. simpl. by apply IH.
    + rewrite bool_decide_eq_false_2 by done. simpl.
      apply IH; [done|]. by rewrite get_lookup_ne.
Qed.

End StoreMore.

(** The claim C9 as stated fails: nothing in [put] looks at what the map
    holds, so a second [put] on a token that is present replaces its entry. *)
Lemma put_twice_replaces :
  Store.run put_a_1 ∅ !! "tok"
  = Some {| Store.zipBuffer := [Byte.x01]; Store.manifest := empty_manifest;
            Store.exp := 3600000 |}
  ∧ Store.run put_a_2 (Store.run put_a_1 ∅) !! "tok"
    = Some {| Store.zipBuffer := [Byte.x02]; Store.manifest := empty_manifest;
              Store.exp := 1800005 |}
  ∧ Store.run put_a_2 (Store.run put_a_1 ∅) !! "tok" ≠ Store.run put_a_1 ∅ !! "tok".
Proof.
  split_and!; [by vm_compute|by vm_compute|].
  vm_compute. discriminate.
Qed.

(** C9 (amended). The cache maps a token to at most one entry, and it
    never changes an entry in place as long as no token is passed to [put]
    twice (which the cache does not check: the callers draw a fresh random
    token for each [put]).  Under that condition, starting from the empty
    cache: the token has no entry before its [put]; right after it the
    entry is the one inserted; and after any further calls the entry is
    still exactly the one inserted, unless one of these calls was a [get]
    on the token at an instant after the expiry (the lazy eviction), in
    which case the token has no entry, and never has one again.  At every
    point of the run an entry that is present stays as it is or is
    removed, and a token whose entry has been removed stays without. *)
Theorem entries_never_replaced (calls1 calls2 : list (Z * Store.call)) (tok : string)
    (zipBuffer : list Byte.byte) (manifest : Manifest.t) (ttlMin now : Z) :
  NoDup (Store.put_tokens
           (calls1 ++ (now, Store.Put tok zipBuffer manifest ttlMin) :: calls2)) →
  let e := {| Store.zipBuffer := zipBuffer; Store.manifest := manifest;
              Store.exp := now + ttlMin * 60 * 1000 |} in
  Store.run calls1 ∅ !! tok = None
  ∧ Store.run (calls1 ++ [(now, Store.Put tok zipBuffer manifest ttlMin)]) ∅ !! tok
    = Some e
  ∧ Store.run (calls1 ++ (now, Store.Put tok zipBuffer manifest ttlMin) :: calls2) ∅
      !! tok
    = (if evicted tok (now + ttlMin * 60 * 1000) calls2 then None else Some e)
  ∧ (∀ pre post tok',
       calls1 ++ (now, Store.Put tok zipBuffer manifest ttlMin) :: calls2
       = pre ++ post →
       (∀ e', Store.run pre ∅ !! tok' = Some e' →
              Store.run post (Store.run pre ∅) !! tok' = Some e'
              ∨ Store.run post (Store.run pre ∅) !! tok' = None)
       ∧ (tok' ∈ Store.put_tokens pre →
          Store.run pre ∅ !! tok' = None →
          Store.run post (Store.run pre ∅) !! tok' = None)).
Proof.
  intros Hnd e.
  assert (Store.run calls1 ∅ !! tok = None
          ∧ tok ∉ Store.put_tokens calls2) as [Hbefore Hafter].
  { rewrite put_tokens_app, put_tokens_cons in Hnd. simpl in Hnd.
    apply NoDup_app in Hnd as (_ & Hdisj & [Hnotin _]%NoDup_cons).
    split; [|done].
    destruct (Store.run calls1 ∅ !! tok) as [e'|] eqn:He'; [|done].
    exfalso. apply (Hdisj tok); [|left].
    eapply run_lookup_Some; [apply lookup_empty|done]. }
  assert (Store.run (calls1 ++ [(now, Store.Put tok zipBuffer manifest ttlMin)]) ∅ !! tok
          = Some e) as Hput.
  { rewrite run_snoc. unfold Store.step, Store.put. simpl. apply lookup_insert_eq. }
  split; [done|]. split; [done|]. split.
  - change (calls1 ++ (now, Store.Put tok zipBuffer manifest ttlMin) :: calls2)
      with (calls1 ++ [(now, Store.Put tok zipBuffer manifest ttlMin)] ++ calls2).
    rewrite app_assoc. unfold Store.run at 1. rewrite foldl_app.
    apply (run_evicted calls2 _ tok e Hafter Hput).
  - intros pre post tok' Heq. rewrite Heq, put_tokens_app in Hnd.
    apply NoDup_app in Hnd as (_ & Hdisj & _). split.
    + intros e' He'.
      assert (tok' ∈ Store.put_tokens pre) as Hin
        by (eapply run_lookup_Some; [apply lookup_empty|done]).
      destruct (run_lookup post (Store.run pre ∅) tok' (Hdisj _ Hin)) as [-> | ->];
        [by left|by right].
    + intros Hin Hnone.
      destruct (run_lookup post (Store.run pre ∅) tok' (Hdisj _ Hin)) as [-> | ->]; done.
Qed.

(** The witness of C9: two tokens, a read of the first before its expiry
    and one after it. *)
Lemma entries_never_replaced_witness :
  NoDup (Store.put_tokens
           ([] ++ (0, Store.Put "a" [Byte.x01] empty_manifest 1)
               :: (10, Store.Get "a") :: calls_b))
  ∧ Store.run ([] ++ [(0, Store.Put "a" [Byte.x01] empty_manifest 1);
                      (10, Store.Get "a")]) ∅ !! "a"
    = Some {| Store.zipBuffer := [Byte.x01]; Store.manifest := empty_manifest;
              Store.exp := 60000 |}
  ∧ Store.run ([] ++ (0, Store.Put "a" [Byte.x01] empty_manifest 1)
                  :: (10, Store.Get "a") :: calls_b) ∅ !! "a" = None.
Proof.
  assert (NoDup (Store.put_tokens
                   ([] ++ (0, Store.Put "a" [Byte.x01] empty_manifest 1)
                       :: (10, Store.Get "a") :: calls_b))) as Hnd.
  { vm_compute. apply NoDup_cons. split.
    - rewrite list_elem_of_singleton. discriminate.
    - apply NoDup_singleton. }
  split; [exact Hnd|]. split.
  - assert (NoDup (Store.put_tokens
                     ([] ++ (0, Store.Put "a" [Byte.x01] empty_manifest 1)
                         :: [(10, Store.Get "a")]))) as Hnd1.
    { vm_compute. apply NoDup_singleton. }
    exact (proj1 (proj2 (proj2
      (entries_never_replaced [] [(10, Store.Get "a")] "a" [Byte.x01]
         empty_manifest 1 0 Hnd1)))).
  - exact (proj1 (proj2 (proj2
      (entries_never_replaced [] ((10, Store.Get "a") :: calls_b) "a" [Byte.x01]
         empty_manifest 1 0 Hnd)))).
Defined.

(** X9. Calls about other tokens leave a token's entry untouched: a [put]
    or [get] changes at most the entry of its own token.  In particular
    there is no sweep: an entry past its expiry stays in the map until a
    [get] on its own token. *)
Theorem store_frame (calls : list (Z * Store.call)) (m : gmap string Store.Entry)
    (tok : string) :
  tok ∉ map call_token calls → Store.run calls m !! tok = m !! tok.
Proof.
  revert m. induction calls as [|c calls IH]; intros m Hne; [done|].
  apply not_elem_of_cons in Hne as [Hc Hcalls].
  change (Store.run (c :: calls) m) with (Store.run calls (Store.step m c)).
  rewrite IH by done. by apply step_lookup_ne.
Qed.

(** The witness of X9: an entry of one minute, and reads of another token
    long after. *)
Lemma store_frame_witness :
  ("a" ∉ map call_token [(70000, Store.Get "b");
                         (80000, Store.Put "b" [] empty_manifest 1)])
  ∧ Store.run [(70000, Store.Get "b"); (80000, Store.Put "b" [] empty_manifest 1)]
              (Store.put "a" [Byte.x01] empty_manifest 1 0 ∅) !! "a"
    = Store.put "a" [Byte.x01] empty_manifest 1 0 ∅ !! "a".
Proof.
  assert ("a" ∉ map call_token [(70000, Store.Get "b");
                                (80000, Store.Put "b" [] empty_manifest 1)]) as Hne.
  { simpl. rewrite !not_elem_of_cons. split_and!; try discriminate. apply not_elem_of_nil. }
  split; [exact Hne|].
  exact (store_frame _ _ "a" Hne).
Defined.

(** X10. A miss is final: once [get(token)] has returned [null], whether
    the token was unknown or its entry expired, every later [get(token)]
    returns [null], at whatever instant, as long as the token is not
    [put] again. *)
Theorem miss_is_final (m : gmap string Store.Entry) (token : string) (now now' : Z)
    (calls : list (Z * Store.call)) :
  (Store.get token now m).1 = None →
  token ∉ Store.put_tokens calls →
  Store.get token now' (Store.run calls (Store.get token now m).2)
  = (None, Store.run calls (Store.get token now m).2).
Proof.
  intros Hmiss%get_None_lookup Hcalls. apply get_absent.
  destruct (run_lookup calls (Store.get token now m).2 token Hcalls) as [-> | ->]; done.
Qed.

(** The witness of X10: a read after the expiry, then a read with the
    clock set back. *)
Lemma miss_is_final_witness :
  (Store.get "a" 70000 (Store.put "a" [Byte.x01] empty_manifest 1 0 ∅)).1 = None
  ∧ ("a" ∉ Store.put_tokens [(70001, Store.Get "b")])
  ∧ Store.get "a" 5
      (Store.run [(70001, Store.Get "b")]
         (Store.get "a" 70000 (Store.put "a" [Byte.x01] empty_manifest 1 0 ∅)).2)
    = (None,
       Store.run [(70001, Store.Get "b")]
         (Store.get "a" 70000 (Store.put "a" [Byte.x01] empty_manifest 1 0 ∅)).2).
Proof.
  assert ((Store.get "a" 70000 (Store.put "a" [Byte.x01] empty_manifest 1 0 ∅)).1 = None)
    as H1 by reflexivity.
  assert ("a" ∉ Store.put_tokens [(70001, Store.Get "b")]) as H2
    by apply not_elem_of_nil.
  split_and!; [exact H1|exact H2|].
  exact (miss_is_final _ "a" 70000 5 _ H1 H2).
Defined.

(** X11. A second [put] on a token wins over the first: the store is as if
    only the second had happened, and a [get] up to the new expiry
    returns the new archive and manifest, whatever the expiry of the
    first was. *)
Theorem put_overwrites (m : gmap string Store.Entry) (token : string)
    (zip1 zip2 : list Byte.byte) (man1 man2 : Manifest.t) (ttl1 ttl2 now1 now2 now' : Z) :
  Store.put token zip2 man2 ttl2 now2 (Store.put token zip1 man1 ttl1 now1 m)
  = Store.put token zip2 man2 ttl2 now2 m
  ∧ (now' ≤ now2 + ttl2 * 60 * 1000 →
     (Store.get token now'
        (Store.put token zip2 man2 ttl2 now2 (Store.put token zip1 man1 ttl1 now1 m))).1
     = Some {| Store.zipBuffer := zip2; Store.manifest := man2;
               Store.exp := now2 + ttl2 * 60 * 1000 |}).
Proof.
  assert (Store.put token zip2 man2 ttl2 now2 (Store.put token zip1 man1 ttl1 now1 m)
          = Store.put token zip2 man2 ttl2 now2 m) as Heq
    by apply insert_insert_eq.
  split; [done|]. intros Hle. rewrite Heq.
  apply get_Some. split; [apply lookup_insert_eq|done].
Qed.

(** X12. The number of entries is at most the number of [put] calls made:
    after any sequence of calls the map holds at most as many entries as
    it held before plus the [put]s of the sequence, and a [get] never
    adds one. *)
Theorem store_size_bound (calls : list (Z * Store.call)) (m : gmap string Store.Entry) :
  (size (Store.run calls m) ≤ size m + length (Store.put_tokens calls))%nat
  ∧ ∀ token now, (size (Store.get token now m).2 ≤ size m)%nat.
Proof.
  split.
  - revert m. induction calls as [|c calls IH]; intros m; [simpl; lia|].
    change (Store.run (c :: calls) m) with (Store.run calls (Store.step m c)).
    specialize (IH (Store.step m c)). pose proof (step_size m c) as Hc.
    change (c :: calls) with ([c] ++ calls). rewrite put_tokens_app, length_app. lia.
  - intros token now. pose proof (step_size m (now, Store.Get token)) as H.
    simpl in H. unfold Store.step in H. simpl in H. lia.
Qed.

(** X13. A TTL that is not positive: with a negative TTL the entry is
    stored already expired, so no [get] at or after the instant of the
    [put] returns it and the first one removes it; with TTL 0 it is
    returned at the very instant of the [put] and at no later one. *)
Theorem put_without_ttl (m : gmap string Store.Entry) (token : string)
    (zipBuffer : list Byte.byte) (manifest : Manifest.t) (ttlMin now now' : Z) :
  (ttlMin < 0 → now ≤ now' →
   Store.get token now' (Store.put token zipBuffer manifest ttlMin now m)
   = (None, delete token m))
  ∧ (ttlMin = 0 →
     ((Store.get token now' (Store.put token zipBuffer manifest ttlMin now m)).1 = None
      ↔ now < now')).
Proof.
  split.
  - intros Httl Hnow.
    erewrite get_stale; [|apply lookup_insert_eq|simpl; lia].
    unfold Store.put. by rewrite delete_insert_eq.
  - intros ->. unfold Store.get, Store.put. rewrite lookup_insert_eq. simpl.
    destruct (Z.ltb_spec (now + 0 * 60 * 1000) now'); simpl; split; try done; lia.
Qed.

(** The witness of X13: a TTL of minus one minute. *)
Lemma put_without_ttl_witness :
  -1 < 0 ∧ 10 ≤ 10
  ∧ Store.get "a" 10 (Store.put "a" [] empty_manifest (-1) 10 ∅)
    = (None, delete "a" ∅).
Proof.
  split_and!; [lia|lia|].
  refine (proj1 (put_without_ttl ∅ "a" [] empty_manifest (-1) 10 10) _ _); lia.
Defined.

Section StoreIntegrity.

Import Store.

(** Every entry of the map is the record of a [put] on its token. *)
Lemma run_entries (calls : list (Z * call)) tok e :
  run calls ∅ !! tok = Some e →
  ∃ t zip man ttl,
    (t, Put tok zip man ttl) ∈ calls
    ∧ e = {| zipBuffer := zip; manifest := man; exp := t + ttl * 60 * 1000 |}.
Proof.
  revert e. induction calls as [|[t c] calls IH] using rev_ind; intros e.
  - unfold run. simpl. by rewrite lookup_empty.
  - rewrite run_snoc. unfold step. simpl. destruct c as [token z man ttl|token].
    + unfold put. destruct (decide (token = tok)) as [->|Hne].
      * rewrite lookup_insert_eq. intros [= <-].
        exists t, z, man, ttl. split; [|done].
        apply elem_of_app. right. apply list_elem_of_here.
      * rewrite lookup_insert_ne by done.
        intros (t' & z' & man' & ttl' & Hin & ->)%IH.
        exists t', z', man', ttl'. split; [|done]. apply elem_of_app. by left.
    + intros He.
      destruct (get_lookup token t (run calls ∅) tok) as [Heq|Heq];
        rewrite Heq in He; [|done].
      apply IH in He as (t' & z' & man' & ttl' & Hin & ->).
      exists t', z', man', ttl'. split; [|done]. apply elem_of_app. by left.
Qed.

End StoreIntegrity.

(** X14. The store serves only what was put: starting from the empty
    store, whatever a [get(token)] returns after any sequence of calls is
    the archive and manifest of a [put] made on that same token, with the
    expiry computed by that [put], and it has not expired. *)
Theorem get_serves_what_was_put (calls : list (Z * Store.call)) (token : string)
    (now : Z) (e : Store.Entry) :
  (Store.get token now (Store.run calls ∅)).1 = Some e →
  now ≤ Store.exp e
  ∧ ∃ t zip man ttl,
      (t, Store.Put token zip man ttl) ∈ calls
      ∧ e = {| Store.zipBuffer := zip; Store.manifest := man;
               Store.exp := t + ttl * 60 * 1000 |}.
Proof.
  intros [Hm Hle]%get_Some. split; [done|]. by apply run_entries.
Qed.

(** The witness of X14: two tokens put, one read. *)
Lemma get_serves_what_was_put_witness :
  (Store.get "a" 10 (Store.run calls_a ∅)).1
  = Some {| Store.zipBuffer := [Byte.x01]; Store.manifest := empty_manifest;
            Store.exp := 60000 |}
  ∧ 10 ≤ 60000.
Proof.
  assert ((Store.get "a" 10 (Store.run calls_a ∅)).1
          = Some {| Store.zipBuffer := [Byte.x01]; Store.manifest := empty_manifest;
                    Store.exp := 60000 |}) as H by reflexivity.
  split; [exact H|].
  exact (proj1 (get_serves_what_was_put _ _ _ _ H)).
Defined.

(** ** Tokens *)

Section Tokens.

Import Manifest.

Lemma hex_length bs : String.length (hex bs) = (2 * length bs)%nat.
Proof.
  induction bs as [|b bs IH]; [done|].
  change (String.length (hex (b :: bs))) with (S (S (String.length (hex bs)))).
  rewrite IH. simpl. lia.
Qed.

Lemma hex_byte_digits b :
  Forall (λ ch, ch ∈ list_ascii_of_string "0123456789abcdef")
         (list_ascii_of_string (hex_byte b)).
Proof.
  apply Forall_forall. intros ch Hch.
  destruct b; vm_compute in Hch;
    repeat (apply elem_of_cons in Hch as [->|Hch];
            [apply (bool_decide_unpack _); by vm_compute|]);
    by apply elem_of_nil in Hch.
Qed.

Lemma hex_digits bs :
  Forall (λ ch, ch ∈ list_ascii_of_string "0123456789abcdef")
         (list_ascii_of_string (hex bs)).
Proof.
  induction bs as [|b bs IH]; [constructor|].
  pose proof (hex_byte_digits b) as Hb.
  change (list_ascii_of_string (hex (b :: bs))) with
    (list_ascii_of_string (hex_byte b) ++ list_ascii_of_string (hex bs)).
  by apply Forall_app.
Qed.

End Tokens.

(** X15. A token is the hexadecimal form of the 16 bytes drawn: it has 32
    characters, each one of [0-9a-f] (so none that is special in a URL
    path), and two tokens are equal only if the drawn bytes are equal. *)
Theorem newToken_shape (randomBytes : list Byte.byte) :
  length randomBytes = 16%nat →
  String.length (newToken randomBytes) = 32%nat
  ∧ Forall (λ ch, ch ∈ list_ascii_of_string "0123456789abcdef")
           (list_ascii_of_string (newToken randomBytes))
  ∧ ∀ randomBytes', newToken randomBytes' = newToken randomBytes →
                    randomBytes' = randomBytes.
Proof.
  intros Hlen. unfold newToken. split_and!.
  - rewrite hex_length. lia.
  - apply hex_digits.
  - intros rb'. apply hex_inj.
Qed.

(** The witness of X15: sixteen bytes. *)
Lemma newToken_shape_witness :
  length (replicate 16 Byte.xa7) = 16%nat
  ∧ String.length (newToken (replicate 16 Byte.xa7)) = 32%nat.
Proof.
  split; [reflexivity|].
  exact (proj1 (newToken_shape (replicate 16 Byte.xa7) eq_refl)).
Defined.

(** * The routes over the store *)

Section Routes.

Import Server.

Variable sha256_digest : list Byte.byte → list Byte.byte.
Variable json_bytes :
  list Manifest.FileEntry → string → string → option (list Byte.byte).
Variable base64_decode : string → option (list Byte.byte).
Variable nacl_sign_detached : list Byte.byte → list Byte.byte → option (list Byte.byte).
Variable base64_encode : list Byte.byte → option string.
Variable clients_blob : list Client → list Byte.byte.
Variable transactions_blob : list Transaction → list Byte.byte.
Variable cases_blob : list Transaction → Lookback → list Byte.byte.
Variable program_blob : RulesMeta → list Byte.byte.
Variable manifest_blob : Manifest.t → list Byte.byte.
Variable zipNamedBuffers : list (string * list Byte.byte) → option (list Byte.byte).
Variable url_string : string → string → option string.

Abbreviation upload_route :=
  (upload sha256_digest json_bytes base64_decode nacl_sign_detached base64_encode
          clients_blob transactions_blob cases_blob program_blob manifest_blob
          zipNamedBuffers url_string).

Lemma verify_get cfg token now m :
  verify cfg token now m =
  (match (Store.get token now m).1 with
   | None => Status404 "Link expired or not found."
   | Some e => RenderVerify (Store.manifest e) (Manifest.SIGN_PUBLIC_KEY cfg)
   end, (Store.get token now m).2).
Proof. unfold verify. destruct (Store.get token now m) as [[e|] m']; done. Qed.

Lemma download_get token now m :
  download token now m =
  (match (Store.get token now m).1 with
   | None => Status404 "Link expired or not found."
   | Some e =>
       SendZip "application/zip"
               ("attachment; filename=" +:+ String.String dquote
                  ("trancheready-evidence.zip" +:+ String.String dquote ""))
               (Store.zipBuffer e)
   end, (Store.get token now m).2).
Proof. unfold download. destruct (Store.get token now m) as [[e|] m']; done. Qed.

(** X16. The two routes answer alike.  On the same store at the same
    instant, [/verify/:token] answers 404 exactly when [/download/:token]
    does, and both leave the same store behind; a token that is not in
    the store gets 404 from both and the store is unchanged; and once a
    route has answered 404 for a token, both routes answer 404 for it at
    any later request, as long as the token is not [put] again. *)
Theorem routes_agree (cfg : Manifest.Cfg) (m : gmap string Store.Entry)
    (token : string) (now : Z) :
  ((verify cfg token now m).1 = Status404 "Link expired or not found."
   ↔ (download token now m).1 = Status404 "Link expired or not found.")
  ∧ (verify cfg token now m).2 = (download token now m).2
  ∧ (m !! token = None →
     verify cfg token now m = (Status404 "Link expired or not found.", m)
     ∧ download token now m = (Status404 "Link expired or not found.", m))
  ∧ ((download token now m).1 = Status404 "Link expired or not found." →
     ∀ calls now',
       token ∉ Store.put_tokens calls →
       verify cfg token now' (Store.run calls (download token now m).2)
       = (Status404 "Link expired or not found.",
          Store.run calls (download token now m).2)
       ∧ download token now' (Store.run calls (download token now m).2)
         = (Status404 "Link expired or not found.",
            Store.run calls (download token now m).2)).
Proof.
  rewrite !verify_get, !download_get. simpl. split_and!.
  - destruct (Store.get token now m).1; simpl; split; done.
  - done.
  - intros Hm. by rewrite (get_absent token now m Hm).
  - intros Hmiss calls now' Hcalls.
    assert ((Store.get token now m).1 = None) as Hnone.
    { destruct (Store.get token now m).1; [discriminate|done]. }
    apply get_None_lookup in Hnone.
    assert (Store.run calls (Store.get token now m).2 !! token = None) as Habs.
    { destruct (run_lookup calls (Store.get token now m).2 token Hcalls) as [-> | ->];
        done. }
    rewrite !verify_get, !download_get, (get_absent token now' _ Habs). done.
Qed.

(** X17. From upload to the links.  When [/upload] answers with the
    links, its [risk] is the list of results of [scoreAll], the two links
    are the URLs of [/verify/] and [/download/] followed by the token, and
    the store gained exactly the entry of the token: the archive of the
    four evidence files (clients.json, transactions.json, cases.json,
    program.html, in that order) followed by manifest.json, and the
    manifest that [buildManifest] built over those four files.  That
    manifest records, for each file, its name, its byte length and the
    hexadecimal SHA-256 digest of its bytes, under the ruleset id of the
    scoring run and the timestamp of the upload.  Up to the expiry
    ([VERIFY_TTL_MIN] minutes after the upload) the verify route shows
    this manifest and the download route sends this archive; after the
    expiry both answer 404. *)
Theorem upload_then_routes (cfg : Manifest.Cfg) (APP_ORIGIN : string)
    (VERIFY_TTL_MIN now : Z) (now_iso : string) (randomBytes : list Byte.byte)
    (clients : list Client) (txs : list Transaction) (lookback : Lookback)
    (store store' : gmap string Store.Entry)
    (risk : list RiskScoreResult) (verify_url download_url : string) :
  upload_route cfg APP_ORIGIN VERIFY_TTL_MIN now now_iso randomBytes clients txs
               lookback store
  = (UploadOk risk verify_url download_url, store') →
  let files :=
    [("clients.json", clients_blob clients);
     ("transactions.json", transactions_blob txs);
     ("cases.json", cases_blob txs lookback);
     ("program.html", program_blob (rulesMeta (scoreAll clients txs lookback)))] in
  let manifest :=
    Manifest.buildManifest sha256_digest json_bytes base64_decode nacl_sign_detached
      base64_encode cfg now_iso files (rulesMeta (scoreAll clients txs lookback)) in
  risk = scores (scoreAll clients txs lookback)
  ∧ url_string ("/verify/" +:+ newToken randomBytes) APP_ORIGIN = Some verify_url
  ∧ url_string ("/download/" +:+ newToken randomBytes) APP_ORIGIN = Some download_url
  ∧ Manifest.created_utc manifest = now_iso
  ∧ Manifest.hash_algo manifest = "SHA-256"
  ∧ Manifest.ruleset_id manifest = "dnfbp-2025.11"
  ∧ Manifest.files manifest
    = [{| Manifest.name := "clients.json";
          Manifest.bytes := length (clients_blob clients);
          Manifest.sha256 := Manifest.hex (sha256_digest (clients_blob clients)) |};
       {| Manifest.name := "transactions.json";
          Manifest.bytes := length (transactions_blob txs);
          Manifest.sha256 := Manifest.hex (sha256_digest (transactions_blob txs)) |};
       {| Manifest.name := "cases.json";
          Manifest.bytes := length (cases_blob txs lookback);
          Manifest.sha256 := Manifest.hex (sha256_digest (cases_blob txs lookback)) |};
       {| Manifest.name := "program.html";
          Manifest.bytes :=
            length (program_blob (rulesMeta (scoreAll clients txs lookback)));
          Manifest.sha256 :=
            Manifest.hex
              (sha256_digest
                 (program_blob (rulesMeta (scoreAll clients txs lookback)))) |}]
  ∧ ∃ zipBuffer,
      zipNamedBuffers
        [("clients.json", clients_blob clients);
         ("transactions.json", transactions_blob txs);
         ("cases.json", cases_blob txs lookback);
         ("program.html", program_blob (rulesMeta (scoreAll clients txs lookback)));
         ("manifest.json", manifest_blob manifest)]
      = Some zipBuffer
      ∧ store'
        = <[newToken randomBytes :=
              {| Store.zipBuffer := zipBuffer; Store.manifest := manifest;
                 Store.exp := now + VERIFY_TTL_MIN * 60 * 1000 |}]> store
      ∧ (∀ now', now' ≤ now + VERIFY_TTL_MIN * 60 * 1000 →
           verify cfg (newToken randomBytes) now' store'
           = (RenderVerify manifest (Manifest.SIGN_PUBLIC_KEY cfg), store')
           ∧ download (newToken randomBytes) now' store'
             = (SendZip "application/zip"
                        ("attachment; filename=" +:+ String.String dquote
                           ("trancheready-evidence.zip" +:+ String.String dquote ""))
                        zipBuffer,
                store'))
      ∧ (∀ now', now + VERIFY_TTL_MIN * 60 * 1000 < now' →
           verify cfg (newToken randomBytes) now' store'
           = (Status404 "Link expired or not found.",
              delete (newToken randomBytes) store')
           ∧ download (newToken randomBytes) now' store'
             = (Status404 "Link expired or not found.",
                delete (newToken randomBytes) store')).
Proof.
  intros Hup files man. revert Hup. unfold upload. cbv zeta.
  fold files. fold man.
  destruct (zipNamedBuffers (files ++ [("manifest.json", manifest_blob man)]))
    as [zip|] eqn:Hzip; [|discriminate].
  destruct (url_string ("/verify/" +:+ newToken randomBytes) APP_ORIGIN)
    as [v|]; [|discriminate].
  destruct (url_string ("/download/" +:+ newToken randomBytes) APP_ORIGIN)
    as [d|]; [|discriminate].
  intros [= <- <- <- <-].
  destruct (buildManifest_fields sha256_digest json_bytes base64_decode
              nacl_sign_detached base64_encode cfg now_iso files
              (rulesMeta (scoreAll clients txs lookback))) as (Hc & Ha & Hr & Hf).
  fold man in Hc, Ha, Hr, Hf.
  split; [done|]. split; [done|]. split; [done|]. split; [done|].
  split; [done|]. split; [done|]. split; [by rewrite Hf|].
  exists zip. split; [exact Hzip|]. split; [done|]. split.
  - intros now' Hle. rewrite verify_get, download_get.
    rewrite (get_fresh (newToken randomBytes) now' _
               {| Store.zipBuffer := zip; Store.manifest := man;
                  Store.exp := now + VERIFY_TTL_MIN * 60 * 1000 |});
      [done|apply lookup_insert_eq|done].
  - intros now' Hlt. rewrite verify_get, download_get.
    rewrite (get_stale (newToken randomBytes) now' _
               {| Store.zipBuffer := zip; Store.manifest := man;
                  Store.exp := now + VERIFY_TTL_MIN * 60 * 1000 |});
      [done|apply lookup_insert_eq|done].
Qed.


End Routes.

(** The witness of X17: one client, one transaction, an hour of TTL. *)
Lemma upload_then_routes_witness :
  sample_upload
  = (Server.UploadOk
       (scores (scoreAll [plain_client "c1"] [cash_deposit "c1" 3]
                         {| start := 0; end_ := 30 |}))
       (sample_url ("/verify/" +:+ newToken (replicate 16 Byte.xa7))
                   "http://localhost:10000")
       (sample_url ("/download/" +:+ newToken (replicate 16 Byte.xa7))
                   "http://localhost:10000"),
     sample_upload.2)
  ∧ scores (scoreAll [plain_client "c1"] [cash_deposit "c1" 3]
                     {| start := 0; end_ := 30 |})
    = scores (scoreAll [plain_client "c1"] [cash_deposit "c1" 3]
                       {| start := 0; end_ := 30 |}).
Proof.
  assert (sample_upload
          = (Server.UploadOk
               (scores (scoreAll [plain_client "c1"] [cash_deposit "c1" 3]
                                 {| start := 0; end_ := 30 |}))
               (sample_url ("/verify/" +:+ newToken (replicate 16 Byte.xa7))
                           "http://localhost:10000")
               (sample_url ("/download/" +:+ newToken (replicate 16 Byte.xa7))
                           "http://localhost:10000"),
             sample_upload.2)) as H by reflexivity.
  split; [exact H|].
  unfold sample_upload in H.
  exact (proj1 (upload_then_routes _ _ _ _ _ _ _ _ _ _ _ _ _ _ _ _ _ _ _ _ _ _ _ _ _ _ H)).
Defined.

(** * HTML escaping *)

Section Escape.

Implicit Types (c : ascii) (s : string).

(** A character that the replacement rewrites. *)
Lemma escape_char_cases c :
  (c = "&"%char ∧ escape_char c = "&amp;")
  ∨ (c = "<"%char ∧ escape_char c = "&lt;")
  ∨ (c = ">"%char ∧ escape_char c = "&gt;")
  ∨ (c = dquote ∧ escape_char c = "&quot;")
  ∨ (c = "'"%char ∧ escape_char c = "&#39;")
  ∨ (c ≠ "&"%char ∧ c ≠ "<"%char ∧ c ≠ ">"%char ∧ c ≠ dquote ∧ c ≠ "'"%char
     ∧ escape_char c = String.String c "").
Proof.
  unfold escape_char.
  destruct (Ascii.eqb_spec c "&"); [naive_solver|].
  destruct (Ascii.eqb_spec c "<"); [naive_solver|].
  destruct (Ascii.eqb_spec c ">"); [naive_solver|].
  destruct (Ascii.eqb_spec c dquote); [naive_solver|].
  destruct (Ascii.eqb_spec c "'"); naive_solver.
Qed.

Lemma count_char_app c s1 s2 :
  count_char c (s1 +:+ s2) = (count_char c s1 + count_char c s2)%nat.
Proof. induction s1 as [|c' s1 IH]; simpl; [done|]. rewrite IH. lia. Qed.

Lemma escapeHtml_cons c s : escapeHtml (String.String c s) = escape_char c +:+ escapeHtml s.
Proof. reflexivity. Qed.

Lemma string_app_assoc s1 s2 s3 : (s1 +:+ s2) +:+ s3 = s1 +:+ (s2 +:+ s3).
Proof.
  induction s1 as [|c s1 IH]; [done|].
  change (String.String c ((s1 +:+ s2) +:+ s3) = String.String c (s1 +:+ (s2 +:+ s3))).
  by rewrite IH.
Qed.

Lemma escapeHtml_app s1 s2 : escapeHtml (s1 +:+ s2) = escapeHtml s1 +:+ escapeHtml s2.
Proof.
  induction s1 as [|c s1 IH]; [done|].
  change (String.String c s1 +:+ s2) with (String.String c (s1 +:+ s2)).
  by rewrite !escapeHtml_cons, IH, string_app_assoc.
Qed.

Lemma count_escape_char c c' :
  c ∈ ["<"%char; ">"%char; dquote; "'"%char] → count_char c (escape_char c') = 0%nat.
Proof.
  intros Hc.
  destruct (escape_char_cases c') as [[-> ->]|[[-> ->]|[[-> ->]|[[-> ->]|[[-> ->]|H]]]]];
    try (repeat (apply elem_of_cons in Hc as [->|Hc]; [reflexivity|]);
         by apply elem_of_nil in Hc).
  destruct H as (H1 & H2 & H3 & H4 & H5 & ->). simpl.
  destruct (Ascii.eqb_spec c' c) as [->|]; [|done].
  repeat (apply elem_of_cons in Hc as [->|Hc]; [done|]). by apply elem_of_nil in Hc.
Qed.

Lemma count_escapeHtml c s :
  c ∈ ["<"%char; ">"%char; dquote; "'"%char] → count_char c (escapeHtml s) = 0%nat.
Proof.
  intros Hc. induction s as [|c' s IH]; [done|].
  by rewrite escapeHtml_cons, count_char_app, count_escape_char, IH.
Qed.

Lemma count_amp_escapeHtml s :
  count_char "&" (escapeHtml s)
  = (count_char "&" s + count_char "<" s + count_char ">" s
     + count_char dquote s + count_char "'" s)%nat.
Proof.
  induction s as [|c' s IH]; [done|].
  rewrite escapeHtml_cons, count_char_app, IH.
  destruct (escape_char_cases c') as [[-> ->]|[[-> ->]|[[-> ->]|[[-> ->]|[[-> ->]|H]]]]];
    try (simpl; lia).
  destruct H as (H1 & H2 & H3 & H4 & H5 & ->). simpl.
  destruct (Ascii.eqb_spec c' "&"), (Ascii.eqb_spec c' "<"), (Ascii.eqb_spec c' ">"),
    (Ascii.eqb_spec c' dquote), (Ascii.eqb_spec c' "'"); try done; lia.
Qed.

Lemma escapeHtml_inj s1 s2 : escapeHtml s1 = escapeHtml s2 → s1 = s2.
Proof.
  revert s2. induction s1 as [|c1 s1 IH]; intros [|c2 s2].
  - done.
  - rewrite escapeHtml_cons.
    destruct (escape_char_cases c2) as [[_ ->]|[[_ ->]|[[_ ->]|[[_ ->]|[[_ ->]|H]]]]];
      [..|destruct H as (_ & _ & _ & _ & _ & ->)]; discriminate.
  - rewrite escapeHtml_cons.
    destruct (escape_char_cases c1) as [[_ ->]|[[_ ->]|[[_ ->]|[[_ ->]|[[_ ->]|H]]]]];
      [..|destruct H as (_ & _ & _ & _ & _ & ->)]; discriminate.
  - rewrite !escapeHtml_cons. intros Heq.
    destruct (escape_char_cases c1)
      as [[-> E1]|[[-> E1]|[[-> E1]|[[-> E1]|[[-> E1]|Hc1]]]]];
      [..|destruct Hc1 as (? & ? & ? & ? & ? & E1)];
      (destruct (escape_char_cases c2)
         as [[-> E2]|[[-> E2]|[[-> E2]|[[-> E2]|[[-> E2]|Hc2]]]]];
       [..|destruct Hc2 as (? & ? & ? & ? & ? & E2)]);
      rewrite ?E1, ?E2 in Heq; simpl in Heq;
      try discriminate; try congruence;
      injection Heq; intros; subst; try congruence;
      f_equal; by apply IH.
Qed.

Lemma escapeHtml_length s : (String.length s ≤ String.length (escapeHtml s))%nat.
Proof.
  induction s as [|c s IH]; [done|]. rewrite escapeHtml_cons.
  destruct (escape_char_cases c) as [[_ ->]|[[_ ->]|[[_ ->]|[[_ ->]|[[_ ->]|H]]]]];
    [..|destruct H as (_ & _ & _ & _ & _ & ->)]; simpl;
    change ("" +:+ escapeHtml s) with (escapeHtml s); lia.
Qed.

End Escape.

(** X19. The escaped text is inert: [escapeHtml(s)] contains no angle
    bracket and no quote, and each of its ampersands starts the entity of
    one of the five characters of [s] that were replaced. *)
Theorem escapeHtml_safe (s : string) :
  count_char "<" (escapeHtml s) = 0%nat
  ∧ count_char ">" (escapeHtml s) = 0%nat
  ∧ count_char dquote (escapeHtml s) = 0%nat
  ∧ count_char "'" (escapeHtml s) = 0%nat
  ∧ count_char "&" (escapeHtml s)
    = (count_char "&" s + count_char "<" s + count_char ">" s
       + count_char dquote s + count_char "'" s)%nat.
Proof.
  split_and!; try (apply count_escapeHtml; set_solver).
  apply count_amp_escapeHtml.
Qed.

(** X20. Escaping loses nothing and works character by character: two
    different texts have different escaped forms, the escaped form of a
    concatenation is the concatenation of the escaped forms, it is never
    shorter than the text, and a text without the five characters is
    returned as it is. *)
Theorem escapeHtml_faithful (s1 s2 : string) :
  (escapeHtml s1 = escapeHtml s2 → s1 = s2)
  ∧ escapeHtml (s1 +:+ s2) = escapeHtml s1 +:+ escapeHtml s2
  ∧ (String.length s1 ≤ String.length (escapeHtml s1))%nat
  ∧ ((count_char "&" s1 + count_char "<" s1 + count_char ">" s1
      + count_char dquote s1 + count_char "'" s1 = 0)%nat →
     escapeHtml s1 = s1).
Proof.
  split_and!.
  - apply escapeHtml_inj.
  - apply escapeHtml_app.
  - apply escapeHtml_length.
  - clear s2. induction s1 as [|c s IH]; [done|]. intros Hc.
    rewrite escapeHtml_cons. simpl in Hc.
    destruct (escape_char_cases c) as [[-> _]|[[-> _]|[[-> _]|[[-> _]|[[-> _]|H]]]]];
      try (simpl in Hc; lia).
    destruct H as (_ & _ & _ & _ & _ & ->).
    rewrite IH by lia. reflexivity.
Qed.

(** X21. The data cannot add markup to the program page: whatever the
    three JSON texts are, the page has the 22 opening angle brackets and
    the 22 closing ones of its fixed tags, plus those of the timestamp
    (an ISO timestamp has none). *)
Theorem program_page_tags (now_iso rulesMeta_json headers_json rejects_json : string) :
  count_char "<" (renderProgramHTML now_iso rulesMeta_json headers_json rejects_json)
  = (22 + count_char "<" now_iso)%nat
  ∧ count_char ">" (renderProgramHTML now_iso rulesMeta_json headers_json rejects_json)
    = (22 + count_char ">" now_iso)%nat.
Proof.
  unfold renderProgramHTML. split.
  - cbn [String.concat].
    rewrite !count_char_app, !count_escapeHtml by set_solver. simpl. lia.
  - cbn [String.concat].
    rewrite !count_char_app, !count_escapeHtml by set_solver. simpl. lia.
Qed.

(** * Further properties of [manifest.js] *)

Section ManifestMore.

Import Manifest.

Variable sha256_digest : list Byte.byte → list Byte.byte.
Variable json_bytes : list FileEntry → string → string → option (list Byte.byte).
Variable base64_decode : string → option (list Byte.byte).
Variable nacl_sign_detached : list Byte.byte → list Byte.byte → option (list Byte.byte).
Variable base64_encode : list Byte.byte → option string.

Abbreviation build' :=
  (buildManifest sha256_digest json_bytes base64_decode nacl_sign_detached base64_encode).

(** X22. What the manifest depends on.  Of the configuration it uses the
    private key and whether the public key is set, of the ruleset
    metadata only [ruleset_id]: two configurations with the same private
    key whose public keys are both set or both unset, and two metadata
    records with the same id, give the same manifest.  In particular a
    public key that does not belong to the private key goes unnoticed,
    and the lookback, corridors and banding are not in the manifest. *)
Theorem manifest_depends_on (cfg1 cfg2 : Cfg) (now_iso : string)
    (namedFiles : list (string * list Byte.byte)) (meta1 meta2 : RulesMeta) :
  SIGN_PRIVATE_KEY cfg1 = SIGN_PRIVATE_KEY cfg2 →
  (SIGN_PUBLIC_KEY cfg1 = "" ↔ SIGN_PUBLIC_KEY cfg2 = "") →
  meta_ruleset_id meta1 = meta_ruleset_id meta2 →
  build' cfg1 now_iso namedFiles meta1 = build' cfg2 now_iso namedFiles meta2.
Proof.
  intros Hpriv Hpub Hid.
  assert (nonempty (SIGN_PUBLIC_KEY cfg1) = nonempty (SIGN_PUBLIC_KEY cfg2)) as Hne.
  { apply eq_true_iff_eq. rewrite !nonempty_spec. tauto. }
  unfold buildManifest, try_sign. simpl. by rewrite Hpriv, Hne, Hid.
Qed.

(** X23. What the signature covers.  When the manifest has a [signing]
    field, its [key_id] is ["ed25519:app"] and its [signature] is the
    base64 form of the detached signature, under the decoded private key,
    of the serialisation of exactly the [files], [created_utc] and
    [ruleset_id] that the manifest carries. *)
Theorem signature_covers (cfg : Cfg) (now_iso : string)
    (namedFiles : list (string * list Byte.byte)) (meta : RulesMeta) (s : Signing) :
  signing (build' cfg now_iso namedFiles meta) = Some s →
  key_id s = "ed25519:app"
  ∧ ∃ msg secret sig,
      json_bytes (files (build' cfg now_iso namedFiles meta))
                 (created_utc (build' cfg now_iso namedFiles meta))
                 (ruleset_id (build' cfg now_iso namedFiles meta)) = Some msg
      ∧ base64_decode (SIGN_PRIVATE_KEY cfg) = Some secret
      ∧ nacl_sign_detached msg secret = Some sig
      ∧ base64_encode sig = Some (signature s).
Proof.
  destruct (buildManifest_fields sha256_digest json_bytes base64_decode
              nacl_sign_detached base64_encode cfg now_iso namedFiles meta)
    as (Hc & _ & Hr & Hf).
  rewrite Hc, Hr, Hf, buildManifest_signing.
  destruct (nonempty _ && nonempty _); [|discriminate].
  unfold try_sign.
  destruct (json_bytes _ _ _) as [msg|]; [|discriminate]. simpl.
  destruct (base64_decode _) as [secret|]; [|discriminate]. simpl.
  destruct (nacl_sign_detached _ _) as [sig|] eqn:Hsig; [|discriminate]. simpl.
  destruct (base64_encode _) as [sig64|] eqn:H64; [|discriminate]. simpl.
  intros [= <-]. split; [done|]. by exists msg, secret, sig.
Qed.

End ManifestMore.

(** The witness of X22: the same private key with two public keys. *)
Lemma manifest_depends_on_witness :
  "c2VjcmV0" = "c2VjcmV0"
  ∧ ("cHViMQ==" = "" ↔ "cHViMg==" = "")
  ∧ sample_build {| Manifest.SIGN_PRIVATE_KEY := "c2VjcmV0";
                    Manifest.SIGN_PUBLIC_KEY := "cHViMQ==" |}
                 (sample_meta {| start := 0; end_ := 30 |})
    = sample_build {| Manifest.SIGN_PRIVATE_KEY := "c2VjcmV0";
                      Manifest.SIGN_PUBLIC_KEY := "cHViMg==" |}
                   (sample_meta {| start := 5; end_ := 90 |}).
Proof.
  assert ("cHViMQ==" = "" ↔ "cHViMg==" = "") as Hpub by (split; discriminate).
  split_and!; [done|exact Hpub|].
  unfold sample_build.
  exact (manifest_depends_on _ _ _ _ _
           {| Manifest.SIGN_PRIVATE_KEY := "c2VjcmV0"; Manifest.SIGN_PUBLIC_KEY := "cHViMQ==" |}
           {| Manifest.SIGN_PRIVATE_KEY := "c2VjcmV0"; Manifest.SIGN_PUBLIC_KEY := "cHViMg==" |}
           _ _ _ _ eq_refl Hpub eq_refl).
Defined.

(** The witness of X23: a manifest signed with the stand-in primitives. *)
Lemma signature_covers_witness :
  Manifest.signing
    (sample_build {| Manifest.SIGN_PRIVATE_KEY := "c2VjcmV0";
                     Manifest.SIGN_PUBLIC_KEY := "cHViMQ==" |}
                  (sample_meta {| start := 0; end_ := 30 |}))
  = Some {| Manifest.key_id := "ed25519:app"; Manifest.signature := "AQI=" |}
  ∧ Manifest.key_id {| Manifest.key_id := "ed25519:app"; Manifest.signature := "AQI=" |}
    = "ed25519:app".
Proof.
  assert (Manifest.signing
            (sample_build {| Manifest.SIGN_PRIVATE_KEY := "c2VjcmV0";
                             Manifest.SIGN_PUBLIC_KEY := "cHViMQ==" |}
                          (sample_meta {| start := 0; end_ := 30 |}))
          = Some {| Manifest.key_id := "ed25519:app"; Manifest.signature := "AQI=" |})
    as H by reflexivity.
  split; [exact H|].
  unfold sample_build in H.
  exact (proj1 (signature_covers _ _ _ _ _ _ _ _ _ _ H)).
Defined.

(** * The request id *)

Section RequestIdFacts.

Import RequestId.

Variable sha1_digest : string → list Byte.byte.

Lemma slice0_length n s : String.length (slice0 n s) = (n `min` String.length s)%nat.
Proof.
  unfold slice0. revert s. induction n as [|n IH]; intros [|c s]; simpl; try done.
  by rewrite IH.
Qed.

Lemma slice0_short n s : (String.length s ≤ n)%nat → slice0 n s = s.
Proof.
  unfold slice0. revert s. induction n as [|n IH]; intros [|c s]; simpl; try done.
  - lia.
  - intros Hle. rewrite IH; [done|lia].
Qed.

Lemma or_l a b : truthy a = true → or a b = a.
Proof. unfold or. by intros ->. Qed.

Lemma or_r a b : truthy a = false → or a b = b.
Proof. unfold or. by intros ->. Qed.

Lemma truthy_text s : truthy (Some (Text s)) = true ↔ s ≠ "".
Proof.
  simpl. destruct (String.eqb_spec s ""); simpl; split; congruence.
Qed.

(** X24. A request id has between 1 and 128 characters (with SHA-1
    digests of 20 bytes): a header value is cut to its first 128
    characters, and the generated id has exactly 16. *)
Theorem reqId_length (req : request) (now : Z) (random : string) :
  (∀ seed, length (sha1_digest seed) = 20%nat) →
  (1 ≤ String.length (reqIdFromHeaders sha1_digest req now random) ≤ 128)%nat.
Proof.
  intros Hsha. unfold reqIdFromHeaders. cbv zeta.
  set (prior := or _ _).
  destruct (truthy prior && is_string prior) eqn:Hp.
  - apply andb_true_iff in Hp as [Ht Hs].
    destruct prior as [[s|l]|]; try discriminate. simpl.
    apply truthy_text in Ht. rewrite slice0_length.
    destruct s as [|a s]; [done|].
    change (String.length (String.String a s)) with (S (String.length s)). lia.
  - rewrite slice0_length, hex_length, Hsha. lia.
Qed.

(** X25. Which header gives the id.  A non-empty [x-request-id] is used,
    cut to 128 characters (unchanged when it is that short); when it is
    absent or empty, a non-empty [x-correlation-id] is used; and an
    [x-request-id] that is an array is not used and hides the headers
    after it: the id is then the generated one. *)
Theorem reqId_precedence (req : request) (now : Z) (random : string) :
  (∀ s, headers req !! "x-request-id" = Some (Text s) → s ≠ "" →
        reqIdFromHeaders sha1_digest req now random = slice0 128 s
        ∧ ((String.length s ≤ 128)%nat →
           reqIdFromHeaders sha1_digest req now random = s))
  ∧ (∀ s, headers req !! "x-request-id" ∈ [None; Some (Text "")] →
          headers req !! "x-correlation-id" = Some (Text s) → s ≠ "" →
          reqIdFromHeaders sha1_digest req now random = slice0 128 s)
  ∧ (∀ l, headers req !! "x-request-id" = Some (Several l) →
          reqIdFromHeaders sha1_digest req now random
          = slice0 16 (Manifest.hex
                         (sha1_digest
                            (default "" (ip req) +:+ "|" +:+ method req +:+ "|"
                             +:+ url req +:+ "|" +:+ pretty now +:+ "|" +:+ random)))).
Proof.
  unfold reqIdFromHeaders. cbv zeta. split_and!.
  - intros s -> Hs. apply truthy_text in Hs as Ht.
    rewrite !(or_l (Some (Text s))), Ht by done. simpl.
    split; [reflexivity|]. apply slice0_short.
  - intros s Hreq -> Hs. apply truthy_text in Hs as Ht.
    assert (truthy (headers req !! "x-request-id") = false) as Hf.
    { rewrite !elem_of_cons, elem_of_nil in Hreq.
      destruct Hreq as [->|[->|[]]]; done. }
    rewrite (or_r _ _ Hf), !(or_l (Some (Text s))), Ht by done. reflexivity.
  - intros l ->. reflexivity.
Qed.

End RequestIdFacts.

(** The witness of X24: a request without any of the four headers. *)
Lemma reqId_length_witness :
  (∀ seed : string, length (replicate 20 Byte.x5a) = 20%nat)
  ∧ (1 ≤ String.length
           (RequestId.reqIdFromHeaders (λ _, replicate 20 Byte.x5a)
              (sample_request []) 1000 "0.25")
     ≤ 128)%nat.
Proof.
  assert (∀ seed : string, length (replicate 20 Byte.x5a) = 20%nat) as H
    by (intros _; reflexivity).
  split; [exact H|].
  exact (reqId_length (λ _, replicate 20 Byte.x5a) (sample_request []) 1000 "0.25" H).
Defined.

(** * The risk table *)

Section RiskTable.

Lemma badge_class_toBand (r : RiskScoreResult) :
  band r = toBand (score r) →
  (App.badge_class r = "high" ↔ 30 ≤ score r)
  ∧ (App.badge_class r = "med" ↔ 15 ≤ score r < 30)
  ∧ (App.badge_class r = "low" ↔ score r < 15)
  ∧ esc (Js.Str (band r)) = band r.
Proof.
  unfold App.badge_class. intros ->. unfold toBand.
  destruct (Z.leb_spec 30 (score r)), (Z.leb_spec 15 (score r));
    vm_compute Js.toLowerCase; vm_compute esc; simpl;
    split_and!; try done; (split; [discriminate|lia]).
Qed.

Lemma filter_tagged (l : list Reason) :
  filter (λ r, type r = "reason") (map tagged l) = map tagged l.
Proof.
  induction l as [|x l IH]; [done|].
  simpl. rewrite filter_cons_True by done. by rewrite IH.
Qed.

End RiskTable.

(** X26. The risk table shows what the scorer returned.  For every result
    of [scoreAll], the badge of [renderRisk] has the class ["high"],
    ["med"] or ["low"] according to the same thresholds 30 and 15 as the
    band, the escaped band text is the band itself, every reason passes
    the table's filter on [type], and every tag shows the family followed
    by the points (no reason has 0 points). *)
Theorem risk_table_of_scoreAll (clients : list Client) (txs : list Transaction)
    (lb : Lookback) :
  Forall (λ r,
            (App.badge_class r = "high" ↔ 30 ≤ score r)
            ∧ (App.badge_class r = "med" ↔ 15 ≤ score r < 30)
            ∧ (App.badge_class r = "low" ↔ score r < 15)
            ∧ esc (Js.Str (band r)) = band r
            ∧ App.shown_reasons r = reasons r
            ∧ Forall (λ x, App.tag_text x
                           = family (spread x) +:+ " +" +:+ pretty (points (spread x)))
                     (reasons r))
         (scores (scoreAll clients txs lb)).
Proof.
  rewrite scoreAll_scores. apply Forall_fmap, Forall_forall. intros c _.
  unfold compose. set (l := filter (selected lb c) txs).
  destruct (badge_class_toBand (score_of lb c l) eq_refl) as (H1 & H2 & H3 & H4).
  split_and!; try done.
  - unfold App.shown_reasons, score_of, result_of. simpl. apply filter_tagged.
  - apply Forall_forall. intros x Hx.
    assert (0 < points (spread x) ≤ 25) as Hp.
    { apply (proj1 (Forall_forall _ _) catalogue_points x).
      eapply elem_of_sublist; [exact Hx|apply reasons_sublist]. }
    unfold App.tag_text.
    destruct (Z.eqb_spec (points (spread x)) 0); [lia|done].
Qed.

(** * Reads and uploads in sequence *)

(** X27. Reading is idempotent and availability only ends: a second
    [get(token)] at the same instant returns what the first returned and
    leaves the store as the first left it, and an entry that a [get]
    returns at some instant would have been returned at every earlier
    instant. *)
Theorem get_idempotent (m : gmap string Store.Entry) (token : string) (now earlier : Z)
    (e : Store.Entry) :
  Store.get token now (Store.get token now m).2 = Store.get token now m
  ∧ ((Store.get token now m).1 = Some e → earlier ≤ now →
     Store.get token earlier m = (Some e, m)).
Proof.
  split.
  - unfold Store.get at 2 3. destruct (m !! token) as [v|] eqn:Hv.
    + destruct (Z.ltb_spec (Store.exp v) now); simpl.
      * apply get_absent, lookup_delete_eq.
      * by apply get_fresh.
    + simpl. by apply get_absent.
  - intros [Hm Hle]%get_Some Hearlier. apply get_fresh; [done|lia].
Qed.

Section Uploads.

Import Server.

Variable sha256_digest : list Byte.byte → list Byte.byte.
Variable json_bytes :
  list Manifest.FileEntry → string → string → option (list Byte.byte).
Variable base64_decode : string → option (list Byte.byte).
Variable nacl_sign_detached : list Byte.byte → list Byte.byte → option (list Byte.byte).
Variable base64_encode : list Byte.byte → option string.
Variable clients_blob : list Client → list Byte.byte.
Variable transactions_blob : list Transaction → list Byte.byte.
Variable cases_blob : list Transaction → Lookback → list Byte.byte.
Variable program_blob : RulesMeta → list Byte.byte.
Variable manifest_blob : Manifest.t → list Byte.byte.
Variable zipNamedBuffers : list (string * list Byte.byte) → option (list Byte.byte).
Variable url_string : string → string → option string.

Abbreviation upload_route' :=
  (upload sha256_digest json_bytes base64_decode nacl_sign_detached base64_encode
          clients_blob transactions_blob cases_blob program_blob manifest_blob
          zipNamedBuffers url_string).

Lemma upload_lookup_ne cfg origin ttl now iso rb clients txs lb store tok :
  tok ≠ newToken rb →
  (upload_route' cfg origin ttl now iso rb clients txs lb store).2 !! tok = store !! tok.
Proof.
  intros Hne. unfold upload. cbv zeta.
  destruct (zipNamedBuffers _) as [zip|]; simpl; [|done].
  destruct (url_string _ origin) as [v|]; [destruct (url_string _ origin) as [d|]|];
    simpl; unfold Store.put; by apply lookup_insert_ne.
Qed.

Lemma upload_ok_lookup cfg origin ttl now iso rb clients txs lb store risk v d s' :
  upload_route' cfg origin ttl now iso rb clients txs lb store = (UploadOk risk v d, s') →
  ∃ zip man,
    s' !! newToken rb
    = Some {| Store.zipBuffer := zip; Store.manifest := man;
              Store.exp := now + ttl * 60 * 1000 |}.
Proof.
  unfold upload. cbv zeta.
  destruct (zipNamedBuffers _) as [zip|]; [|discriminate].
  destruct (url_string _ origin) as [v'|]; [|discriminate].
  destruct (url_string _ origin) as [d'|]; [|discriminate].
  intros [= _ _ _ <-]. eexists zip, _. apply lookup_insert_eq.
Qed.

(** X28. Uploads do not disturb each other: after a successful upload, a
    later upload that draws different token bytes, whatever its data and
    whether it succeeds or not, leaves the first upload's download as it
    was: up to the first expiry the route sends the same archive. *)
Theorem uploads_do_not_interfere
    (cfg1 cfg2 : Manifest.Cfg) (origin1 origin2 : string) (ttl1 ttl2 now1 now2 : Z)
    (iso1 iso2 : string) (rb1 rb2 : list Byte.byte)
    (clients1 clients2 : list Client) (txs1 txs2 : list Transaction)
    (lb1 lb2 : Lookback) (store s1 : gmap string Store.Entry)
    (risk : list RiskScoreResult) (v d : string) (now' : Z) :
  upload_route' cfg1 origin1 ttl1 now1 iso1 rb1 clients1 txs1 lb1 store
  = (UploadOk risk v d, s1) →
  rb1 ≠ rb2 →
  now' ≤ now1 + ttl1 * 60 * 1000 →
  (download (newToken rb1) now' s1).1 ≠ Status404 "Link expired or not found."
  ∧ (download (newToken rb1) now'
       (upload_route' cfg2 origin2 ttl2 now2 iso2 rb2 clients2 txs2 lb2 s1).2).1
    = (download (newToken rb1) now' s1).1.
Proof.
  intros (zip & man & Hs1)%upload_ok_lookup Hrb Hnow.
  assert (newToken rb1 ≠ newToken rb2) as Htok.
  { intros Heq. apply Hrb. by apply hex_inj. }
  rewrite !download_get.
  rewrite (get_fresh _ now' s1 _ Hs1) by done.
  erewrite get_fresh; [|by rewrite upload_lookup_ne|done].
  done.
Qed.

End Uploads.

(** The witness of X28: two uploads with different token bytes. *)
Lemma uploads_do_not_interfere_witness :
  sample_upload
  = (Server.UploadOk
       (scores (scoreAll [plain_client "c1"] [cash_deposit "c1" 3]
                         {| start := 0; end_ := 30 |}))
       (sample_url ("/verify/" +:+ newToken (replicate 16 Byte.xa7))
                   "http://localhost:10000")
       (sample_url ("/download/" +:+ newToken (replicate 16 Byte.xa7))
                   "http://localhost:10000"),
     sample_upload.2)
  ∧ replicate 16 Byte.xa7 ≠ replicate 16 Byte.x3c
  ∧ 5000 ≤ 1000 + 60 * 60 * 1000
  ∧ (Server.download (newToken (replicate 16 Byte.xa7)) 5000
       (sample_upload_on (replicate 16 Byte.x3c) sample_upload.2).2).1
    = (Server.download (newToken (replicate 16 Byte.xa7)) 5000 sample_upload.2).1.
Proof.
  assert (sample_upload
          = (Server.UploadOk
               (scores (scoreAll [plain_client "c1"] [cash_deposit "c1" 3]
                                 {| start := 0; end_ := 30 |}))
               (sample_url ("/verify/" +:+ newToken (replicate 16 Byte.xa7))
                           "http://localhost:10000")
               (sample_url ("/download/" +:+ newToken (replicate 16 Byte.xa7))
                           "http://localhost:10000"),
             sample_upload.2)) as H1 by reflexivity.
  assert (replicate 16 Byte.xa7 ≠ replicate 16 Byte.x3c) as H2 by discriminate.
  assert (5000 ≤ 1000 + 60 * 60 * 1000) as H3 by lia.
  split_and!; [exact H1|exact H2|exact H3|].
  unfold sample_upload in H1 at 1. unfold sample_upload_on.
  eapply proj2. eapply uploads_do_not_interfere; [exact H1|exact H2|exact H3].
Defined.
